(** * fcc: the type algebra and the expression analyzer

    A shallow embedding of the type algebra (type.c) and of the value
    analyzer (analyzer-value.c) of the fcc compiler, with the properties
    its specification states about them.

    Conventions of the embedding:
    - a C [int] is a [Z];
    - a [sym*] is a handle ([symref]) into a symbol heap, a finite map
      from handles to symbol records; pointer equality of symbols is
      equality of handles;
    - a [type*] is a tree. The C struct has every field for every tag,
      and [typeCreate] zeroes [basic], [base], [array], [returnType],
      [paramTypes] and [params]: the accessors [basic], [base],
      [returnType] give [None] for the null pointer, [params] and
      [array] give 0, on the tags that do not set them. [typeCreate]
      does not write the [variadic] flag: a type that it creates holds
      there what the allocation held;
    - a function that dereferences a null pointer has no result: the
      fallible functions return an [option], [None] being the crash. *)

From stdpp Require Import base option list strings gmap.
From Stdlib Require Import ZArith Lia.
From stdpp Require Import pretty.

Set Warnings "-register-all".
Local Open Scope Z_scope.

(** ** Symbols *)

Definition symref := positive.
Bind Scope positive_scope with symref.

Inductive symTag :=
| symUndefined
| symType
| symStruct
| symEnumConstant
| symId
| symParam.

Global Instance symTag_eq_dec : EqDecision symTag.
Proof. solve_decision. Defined.

(** ** Types *)

Inductive typeTag :=
| typeBasic
| typePtr
| typeArray
| typeFunction
| typeInvalid.

Global Instance typeTag_eq_dec : EqDecision typeTag.
Proof. solve_decision. Defined.

(** A type is a tree whose payloads are owned by their parent. The
    parameter count [params] of a function type is the length of its
    parameter list. The declaration of the struct (type.h) is not in
    these sources; [variadic] is the flag that [analyzerCall] reads. No
    function of type.c writes it: the flag of a function type of the
    symbol heap is the one its declaration gave it, and the flag of a
    type that type.c creates is uninitialised. *)
Inductive type :=
| Basic (basic : symref)
| Ptr (base : type)
| Array (base : type) (array : Z)
| Function (returnType : type) (paramTypes : list type) (variadic : bool)
| Invalid.

(** The induction principle that reaches the parameters of a function
    type. *)
Section type_ind_nested.
Variable P : type -> Prop.
Hypothesis HBasic : forall s, P (Basic s).
Hypothesis HPtr : forall b, P b -> P (Ptr b).
Hypothesis HArray : forall b n, P b -> P (Array b n).
Hypothesis HFunction :
  forall r ps v, P r -> Forall P ps -> P (Function r ps v).
Hypothesis HInvalid : P Invalid.

Fixpoint type_ind_nested (t : type) : P t :=
  match t with
  | Basic s => HBasic s
  | Ptr b => HPtr b (type_ind_nested b)
  | Array b n => HArray b n (type_ind_nested b)
  | Function r ps v =>
      HFunction r ps v (type_ind_nested r)
        ((fix go (l : list type) : Forall P l :=
            match l with
            | [] => Forall_nil_2 P
            | x :: l' => Forall_cons_2 P x l' (type_ind_nested x) (go l')
            end) ps)
  | Invalid => HInvalid
  end.
End type_ind_nested.

Record sym := Sym {
  sym_tag : symTag;
  sym_ident : string;
  sym_typeMask : Z;
  sym_size : Z;
  sym_children : list symref;
  sym_dt : option type
}.

(** The symbol heap. *)
Abbreviation symtab := (gmap symref sym).

(** *** The fields of the C struct *)

Definition tag (DT : type) : typeTag :=
  match DT with
  | Basic _ => typeBasic
  | Ptr _ => typePtr
  | Array _ _ => typeArray
  | Function _ _ _ => typeFunction
  | Invalid => typeInvalid
  end.

Definition basic (DT : type) : option symref :=
  match DT with Basic s => Some s | _ => None end.

Definition base (DT : type) : option type :=
  match DT with Ptr b | Array b _ => Some b | _ => None end.

Definition array (DT : type) : Z :=
  match DT with Array _ n => n | _ => 0 end.

Definition returnType (DT : type) : option type :=
  match DT with Function r _ _ => Some r | _ => None end.

Definition paramTypes (DT : type) : list type :=
  match DT with Function _ ps _ => ps | _ => [] end.

Definition params (DT : type) : Z := Z.of_nat (length (paramTypes DT)).

(** The content of the [variadic] field of a type that [typeCreate] has
    allocated: [malloc] gives no value to it and no constructor writes
    it. It is a parameter of the embedding, the same for all
    allocations; the properties below hold whatever it is. *)
Class allocation := Allocation { uninitialised : bool }.

Definition variadic `{allocation} (DT : type) : bool :=
  match DT with Function _ _ v => v | _ => uninitialised end.

(** The classification bits of a basic type's symbol. Their values are
    declared in a header that the sources here do not include: they are
    taken as parameters. *)
Class typeMasks := TypeMasks {
  typeNumeric : Z;
  typeOrdinal : Z;
  typeEquality : Z;
  typeAssignment : Z;
  typeCondition : Z
}.

(** [mask & bit] used as a C condition. *)
Definition maskHas (mask bit : Z) : bool := negb (Z.land mask bit =? 0).

(** ** Constructors *)

Definition typeCreateBasic (s : symref) : type := Basic s.
Definition typeCreatePtr (b : type) : type := Ptr b.
Definition typeCreateArray (b : type) (size : Z) : type := Array b size.
Definition typeCreateInvalid : type := Invalid.

(** [typeCreateFunction] sets the return type, the parameters and their
    count, and leaves the variadic flag as allocated. *)
Definition typeCreateFunction `{allocation} (returnType : type)
           (paramTypes : list type) : type :=
  Function returnType paramTypes uninitialised.

(** [typeDeepDuplicate]: a structural copy, made with the constructors.
    The copy of a function type does not get the flag of the
    original. *)
Fixpoint typeDeepDuplicate `{allocation} (DT : type) : type :=
  match DT with
  | Invalid => typeCreateInvalid
  | Basic s => typeCreateBasic s
  | Ptr b => typeCreatePtr (typeDeepDuplicate b)
  | Array b n => typeCreateArray (typeDeepDuplicate b) n
  | Function r ps _ =>
      typeCreateFunction (typeDeepDuplicate r) (map typeDeepDuplicate ps)
  end.

(** ** Classification *)

Definition typeIsInvalid (DT : type) : bool := bool_decide (tag DT = typeInvalid).

Definition typeIsBasic (DT : type) : bool :=
  bool_decide (tag DT = typeBasic) || typeIsInvalid DT.

Definition typeIsPtr (DT : type) : bool :=
  bool_decide (tag DT = typePtr) || typeIsInvalid DT.

Definition typeIsArray (DT : type) : bool :=
  bool_decide (tag DT = typeArray) || typeIsInvalid DT.

Definition typeIsFunction (DT : type) : bool :=
  bool_decide (tag DT = typeFunction) || typeIsInvalid DT.

Definition typeIsCallable (DT : type) : bool :=
  (typeIsFunction DT
   || match DT with Ptr b => typeIsFunction b | _ => false end)
  || typeIsInvalid DT.

(** C's [&&] and [||] over conditions that may crash: the right operand
    is evaluated only when the left one does not decide. *)
Definition andC (x y : option bool) : option bool :=
  a ← x; if a : bool then y else Some false.

Definition orC (x y : option bool) : option bool :=
  a ← x; if a : bool then Some true else y.

Infix "&&?" := andC (at level 40, left associativity).
Infix "||?" := orC (at level 50, left associativity).

Section TypeAlgebra.
Context `{typeMasks} `{allocation}.
Variable syms : symtab.

(** [DT->basic->f]: [None] when [DT->basic] is null or dangling. *)
Definition basicField {A} (f : sym -> A) (DT : type) : option A :=
  s ← basic DT; f <$> syms !! s.

(** The product of two C ints, wrapped to 32 bits. *)
Definition wrap32 (z : Z) : Z := (z + 2^31) mod 2^32 - 2^31.

Fixpoint typeGetSize (DT : type) : option Z :=
  match DT with
  | Invalid => Some 0
  | Array b n => sz ← typeGetSize b; Some (wrap32 (n * sz))
  | Ptr _ | Function _ _ _ => Some 8
  | Basic _ => basicField sym_size DT
  end.

(** [(DT->tag == typeBasic && DT->basic-><test>) || <rest>], with the
    short-circuit evaluation of C. *)
Definition basicAnd (DT : type) (test : option bool) (rest : bool) : option bool :=
  if bool_decide (tag DT = typeBasic)
  then b ← test; Some (b || rest)
  else Some rest.

Definition typeIsVoid (DT : type) : option bool :=
  if bool_decide (tag DT = typeBasic) then
    t ← basicField sym_tag DT;
    if bool_decide (t = symType) then
      sz ← typeGetSize DT;
      Some ((sz =? 0) || typeIsInvalid DT)
    else Some (typeIsInvalid DT)
  else Some (typeIsInvalid DT).

Definition typeIsRecord (DT : type) : option bool :=
  basicAnd DT ((fun t => bool_decide (t = symStruct)) <$> basicField sym_tag DT)
           (typeIsInvalid DT).

Definition maskTest (bit : Z) (DT : type) : option bool :=
  basicAnd DT ((fun m => maskHas m bit) <$> basicField sym_typeMask DT)
           (typeIsPtr DT || typeIsInvalid DT).

Definition typeIsNumeric : type -> option bool := maskTest typeNumeric.
Definition typeIsOrdinal : type -> option bool := maskTest typeOrdinal.
Definition typeIsEquality : type -> option bool := maskTest typeEquality.
Definition typeIsAssignment : type -> option bool := maskTest typeAssignment.
Definition typeIsCondition : type -> option bool := maskTest typeCondition.

(** ** Comparison *)

(** The loop of [typeIsCompatible] over the parameters of a function
    model: [i] runs over the model's parameters, and the first unequal
    pair returns false. *)
Fixpoint paramsAllEqual (eqf : type -> type -> option bool)
         (dParams mParams : list type) : option bool :=
  match dParams, mParams with
  | _, [] => Some true
  | [], _ :: _ => None
  | p :: ps, q :: qs =>
      b ← eqf p q;
      if b : bool then paramsAllEqual eqf ps qs else Some false
  end.

(** The function case of [typeIsCompatible], on the fields of [DT] and
    [Model] that it reads. *)
Definition functionMatch (eqf : type -> type -> option bool)
           (dRet : option type) (dParams : list type)
           (mRet : option type) (mParams : list type) : option bool :=
  if negb (Z.of_nat (length mParams) =? Z.of_nat (length dParams))
  then Some false
  else
    b ← paramsAllEqual eqf dParams mParams;
    if b : bool then
      match dRet, mRet with
      | Some dr, Some mr => eqf dr mr
      | _, _ => None
      end
    else Some false.

(** [typeIsEqual] calls [typeIsCompatible] on two function types, which
    calls [typeIsEqual] on their parts: here that call is the function
    case itself, and [typeIsEqual_Function] below states that it is the
    call of the source. *)
Fixpoint typeIsEqual (L R : type) {struct L} : option bool :=
  if typeIsInvalid L || typeIsInvalid R then Some true
  else if negb (bool_decide (tag L = tag R)) then Some false
  else
    match L with
    | Function lr lps _ =>
        functionMatch typeIsEqual (Some lr) lps (returnType R) (paramTypes R)
    | Ptr lb =>
        match base R with Some rb => typeIsEqual lb rb | None => None end
    | Array lb ln =>
        Some (bool_decide (ln = array R))
        &&? match base R with Some rb => typeIsEqual lb rb | None => None end
    | Basic ls => Some (bool_decide (Some ls = basic R))
    | Invalid => Some true
    end.

Fixpoint typeIsCompatible (DT Model : type) {struct Model} : option bool :=
  if typeIsInvalid DT || typeIsInvalid Model then Some true
  else
    match Model with
    | Function mr mps _ =>
        functionMatch typeIsEqual (returnType DT) (paramTypes DT) (Some mr) mps
    | Ptr mb =>
        (Some (typeIsPtr DT || typeIsArray DT)
         &&? (typeIsVoid mb
              ||? match base DT with
                  | Some db => typeIsCompatible db mb
                  | None => None
                  end))
        ||? (Some (typeIsBasic DT)
             &&? ((fun m => maskHas m typeNumeric) <$> basicField sym_typeMask DT))
    | Array mb mn =>
        Some (typeIsArray DT)
        &&? Some (bool_decide (array DT = mn) || bool_decide (mn = -1))
        &&? match base DT with
            | Some db => typeIsCompatible db mb
            | None => None
            end
    | Basic ms =>
        if typeIsPtr DT
        then (fun m => maskHas m typeNumeric) <$> basicField sym_typeMask Model
        else Some (negb (typeIsArray DT) && bool_decide (basic DT = Some ms))
    | Invalid => Some true
    end.

(** ** Derivation *)

Definition typeDeriveFrom (DT : type) : type := typeDeepDuplicate DT.

(** [debugAssert] is a call: its condition is evaluated, and crashes
    when the condition does. *)
Definition typeDeriveFromTwo (L R : type) : option type :=
  if typeIsInvalid L || typeIsInvalid R then Some typeCreateInvalid
  else _ ← typeIsCompatible L R; Some (typeDeriveFrom L).

Definition typeDeriveUnified (L R : type) : option type :=
  if typeIsInvalid L || typeIsInvalid R then Some typeCreateInvalid
  else
    _ ← typeIsCompatible L R;
    e ← typeIsEqual L R;
    if e : bool then Some (typeDeepDuplicate L) else typeDeriveFromTwo L R.

Definition typeDeriveBase (DT : type) : option type :=
  if typeIsInvalid DT then Some typeCreateInvalid
  else typeDeepDuplicate <$> base DT.

Definition typeDerivePtr (b : type) : type := typeCreatePtr (typeDeepDuplicate b).

Definition typeDeriveArray (b : type) (size : Z) : type :=
  typeCreateArray (typeDeepDuplicate b) size.

Fixpoint typeDeriveReturn (DT : type) : option type :=
  match DT with
  | Invalid => Some typeCreateInvalid
  | Ptr b => typeDeriveReturn b
  | _ => typeDeepDuplicate <$> returnType DT
  end.
End TypeAlgebra.

(** ** The syntax tree *)

Inductive astTag :=
| astUndefined
| astInvalid
| astEmpty
| astModule
| astUsing
| astFnImpl
| astDecl
| astType
| astCode
| astBranch
| astLoop
| astIter
| astReturn
| astBreak
| astBOP
| astUOP
| astTOP
| astIndex
| astCall
| astCast
| astSizeof
| astLiteral.

Global Instance astTag_eq_dec : EqDecision astTag.
Proof. solve_decision. Defined.

Inductive literalTag :=
| literalUndefined
| literalIdent
| literalInt
| literalChar
| literalBool
| literalStr
| literalCompound
| literalInit.

Global Instance literalTag_eq_dec : EqDecision literalTag.
Proof. solve_decision. Defined.

(** A node. [ast_l] and [ast_r] are the positional children, null when
    absent; [ast_childs] is the list that [firstChild] and [nextSibling]
    thread, and the count [children] is its length. The positional
    children and the listed ones are distinct subtrees. The analyzer
    writes [ast_dt] and [ast_symbol]. *)
Inductive ast := Ast {
  ast_tag : astTag;
  ast_litTag : literalTag;
  ast_o : string;
  ast_literal : string;
  ast_l : option ast;
  ast_r : option ast;
  ast_childs : list ast;
  ast_symbol : option symref;
  ast_dt : option type
}.

Definition firstChild (Node : ast) : option ast := head (ast_childs Node).

Definition children (Node : ast) : Z := Z.of_nat (length (ast_childs Node)).

Definition setL (Node : ast) (c : ast) : ast :=
  Ast (ast_tag Node) (ast_litTag Node) (ast_o Node) (ast_literal Node)
      (Some c) (ast_r Node) (ast_childs Node) (ast_symbol Node) (ast_dt Node).

Definition setR (Node : ast) (c : ast) : ast :=
  Ast (ast_tag Node) (ast_litTag Node) (ast_o Node) (ast_literal Node)
      (ast_l Node) (Some c) (ast_childs Node) (ast_symbol Node) (ast_dt Node).

Definition setChilds (Node : ast) (cs : list ast) : ast :=
  Ast (ast_tag Node) (ast_litTag Node) (ast_o Node) (ast_literal Node)
      (ast_l Node) (ast_r Node) cs (ast_symbol Node) (ast_dt Node).

(** [Node->firstChild] after the first child was visited. *)
Definition setFirstChild (Node : ast) (c : ast) : ast :=
  setChilds Node (c :: tail (ast_childs Node)).

Definition setSymbol (Node : ast) (s : option symref) : ast :=
  Ast (ast_tag Node) (ast_litTag Node) (ast_o Node) (ast_literal Node)
      (ast_l Node) (ast_r Node) (ast_childs Node) s (ast_dt Node).

Definition setDt (Node : ast) (d : type) : ast :=
  Ast (ast_tag Node) (ast_litTag Node) (ast_o Node) (ast_literal Node)
      (ast_l Node) (ast_r Node) (ast_childs Node) (ast_symbol Node) (Some d).

(** ** The analyzer context *)

Inductive builtinTypeIndex :=
| builtinVoid
| builtinBool
| builtinChar
| builtinInt.

(** What the analyzer reports, in the order it reports it. The error
    primitives and the debug output are not in these sources: an event
    records the primitive that was called and its arguments. *)
Inductive event :=
| TypeExpected (Node : ast) (place expected : string)
| TypeExpectedType (Node : ast) (place : string) (expected : type)
| Lvalue (Node : ast) (o : string)
| Mismatch (Node : ast) (o : string)
| Degree (Node : ast) (thing : string) (expected found : Z) (place : string)
| ParamMismatch (Node : ast) (n : Z) (expected found : type)
| NamedParamMismatch (Node : ast) (n : Z) (fn : symref) (found : type)
| Member (o : string) (Node : ast) (record : type)
| InitFieldMismatch (Node : ast) (structSym field : symref)
| IllegalSymAsValue (Node : ast) (Symbol : symref)
| DebugErrorUnhandled (function what : string)
| DebugError (function : string).

(** The context of a pass, with the symbol heap that the pass reads and
    writes. [ctx->errors] is the number of error events of [ctx_log]. *)
Record analyzerCtx := AnalyzerCtx {
  ctx_syms : symtab;
  ctx_types : builtinTypeIndex -> symref;
  ctx_log : list event
}.

Record valueResult := ValueResult {
  vr_dt : type;
  lvalue : bool
}.

(** A computation of the analyzer: it reads and writes the context, and
    has no result when it dereferences a null pointer. *)
Definition M (A : Type) : Type := analyzerCtx -> option (A * analyzerCtx).

Global Instance M_ret : MRet M := fun A a ctx => Some (a, ctx).

Global Instance M_bind : MBind M := fun A B f m ctx =>
  match m ctx with
  | Some (a, ctx') => f a ctx'
  | None => None
  end.

Definition crash {A} : M A := fun _ => None.

(** A pointer that is dereferenced. *)
Definition deref {A} (p : option A) : M A :=
  match p with Some a => mret a | None => crash end.

(** A query of the type algebra on the current heap. *)
Definition query {A} (f : symtab -> option A) : M A :=
  fun ctx => match f (ctx_syms ctx) with Some a => Some (a, ctx) | None => None end.

(** [S->f] for a symbol [S]. *)
Definition symField {A} (f : sym -> A) (S : symref) : M A :=
  query (fun syms => f <$> syms !! S).

Definition emit (e : event) : M unit :=
  fun ctx => Some (tt, AnalyzerCtx (ctx_syms ctx) (ctx_types ctx) (ctx_log ctx ++ [e])).

Definition types (i : builtinTypeIndex) : M symref :=
  fun ctx => Some (ctx_types ctx i, ctx).

(** [S->dt = DT]. *)
Definition setSymDt (S : symref) (DT : type) : M unit :=
  fun ctx =>
    match ctx_syms ctx !! S with
    | Some (Sym t i m sz cs _) =>
        Some (tt, AnalyzerCtx (<[S := Sym t i m sz cs (Some DT)]> (ctx_syms ctx))
                              (ctx_types ctx) (ctx_log ctx))
    | None => None
    end.

Definition when (b : bool) (m : M unit) : M unit := if b then m else mret tt.

(** *** The error primitives

    Modelled from the spec: the reporting primitives of the diagnostics
    sink (error.c) are not in these sources. Each call produces one line
    keyed on the source location of its node, so the node is
    dereferenced, and counts one error. *)

Definition errorTypeExpected (Node : option ast) (place expected : string) : M unit :=
  n ← deref Node; emit (TypeExpected n place expected).

Definition errorTypeExpectedType (Node : option ast) (place : string) (expected : type) : M unit :=
  n ← deref Node; emit (TypeExpectedType n place expected).

Definition errorLvalue (Node : option ast) (o : string) : M unit :=
  n ← deref Node; emit (Lvalue n o).

Definition errorMismatch (Node : option ast) (o : string) : M unit :=
  n ← deref Node; emit (Mismatch n o).

Definition errorDegree (Node : option ast) (thing : string) (expected found : Z)
           (place : string) : M unit :=
  n ← deref Node; emit (Degree n thing expected found place).

Definition errorParamMismatch (Node : option ast) (n : Z) (expected found : type) : M unit :=
  c ← deref Node; emit (ParamMismatch c n expected found).

Definition errorNamedParamMismatch (Node : option ast) (n : Z) (fn : symref)
           (found : type) : M unit :=
  c ← deref Node; emit (NamedParamMismatch c n fn found).

Definition errorMember (o : string) (Node : option ast) (record : type) : M unit :=
  n ← deref Node; emit (Member o n record).

Definition errorInitFieldMismatch (Node : option ast) (structSym field : symref) : M unit :=
  n ← deref Node; emit (InitFieldMismatch n structSym field).

Definition errorIllegalSymAsValue (Node : option ast) (Symbol : symref) : M unit :=
  n ← deref Node; emit (IllegalSymAsValue n Symbol).

Definition debugErrorUnhandled (function what : string) : M unit :=
  emit (DebugErrorUnhandled function what).

Definition debugError (function : string) : M unit :=
  emit (DebugError function).

(** *** The symbol table interface *)

(** Modelled from the spec: [symChild] (sym.c) is not in these sources.
    [child(record, name)] is the child of the record that bears the
    name, in declaration order, or null. *)
Fixpoint symChildIn (syms : symtab) (cs : list symref) (look : string) : option (option symref) :=
  match cs with
  | [] => Some None
  | c :: cs' =>
      s ← syms !! c;
      if String.eqb (sym_ident s) look then Some (Some c) else symChildIn syms cs' look
  end.

Definition symChild (Scope : symref) (look : string) : M (option symref) :=
  query (fun syms => s ← syms !! Scope; symChildIn syms (sym_children s) look).

(** Modelled from the spec: [typeGetRecordSym] is not in these sources.
    The record symbol of a direct record or of a pointer to a record,
    and null for any other type. *)
Definition typeGetRecordSym (record : type) : M (option symref) :=
  query (fun syms =>
    let ofBasic (DT : type) : option (option symref) :=
      match DT with
      | Basic s =>
          t ← sym_tag <$> syms !! s;
          Some (if bool_decide (t = symStruct) then Some s else None)
      | _ => Some None
      end in
    match record with
    | Ptr b => ofBasic b
    | _ => ofBasic record
    end).

(** ** Operator classes *)

(** [!strcmp(o, s)]. *)
Definition streq (o s : string) : bool := String.eqb o s.

Definition isNumericBOP (o : string) : bool :=
  streq o "+" || streq o "-"
  || streq o "*" || streq o "/"
  || streq o "%"
  || streq o "&" || streq o "|"
  || streq o "^"
  || streq o "<<" || streq o ">>"
  || streq o "+=" || streq o "-="
  || streq o "*=" || streq o "/="
  || streq o "%="
  || streq o "&=" || streq o "|="
  || streq o "^="
  || streq o "<<=" || streq o ">>=".

Definition isOrdinalBOP (o : string) : bool :=
  streq o ">" || streq o "<" || streq o ">=" || streq o "<=".

Definition isEqualityBOP (o : string) : bool := streq o "==" || streq o "!=".

Definition isAssignmentBOP (o : string) : bool :=
  streq o "="
  || streq o "+=" || streq o "-="
  || streq o "*=" || streq o "/="
  || streq o "%="
  || streq o "&=" || streq o "|="
  || streq o "^="
  || streq o "<<=" || streq o ">>=".

Definition isLogicalBOP (o : string) : bool := streq o "&&" || streq o "||".

Definition isMemberBOP (o : string) : bool := streq o "." || streq o "->".

Definition isDerefBOP (o : string) : bool := streq o "->".

Definition isCommaBOP (o : string) : bool := streq o ",".

(** ** The value analyzer *)

Section Analyzer.
Context `{typeMasks} `{allocation}.

(** The type analyzer of declarations (analyzer-decl.c) is a
    collaborator outside these sources: it visits a type expression
    and gives its type. *)
Variable analyzerType : ast -> M (ast * type).

(** The visitors call each other through [analyzerValue]; each takes
    the two recursive entry points, which [analyzerValue] and
    [analyzerInitOrCompoundLiteral] tie below. *)
Variable analyzerValue : ast -> M (ast * valueResult).
Variable analyzerInitOrCompoundLiteral : ast -> type -> M (ast * valueResult).

(** [analyzerValue(ctx, p)] on a child pointer [p]. *)
Definition visit (p : option ast) : M (ast * valueResult) :=
  match p with
  | Some n => analyzerValue n
  | None => crash
  end.

(** [analyzerType(ctx, p)] on a child pointer [p]. *)
Definition visitType (p : option ast) : M (ast * type) :=
  n ← deref p; analyzerType n.

(** [analyzerValue(ctx, Node->firstChild)], on the child list. *)
Definition visitFirst (cs : list ast) : M (ast * valueResult) :=
  match cs with
  | n :: _ => analyzerValue n
  | [] => crash
  end.

(** [if (!is(L.dt) || !is(R.dt)) errorTypeExpected(ctx, !is(L.dt) ?
    Node->l : Node->r, o, what)]. *)
Definition expectBoth (test : symtab -> type -> option bool)
           (Node : ast) (L R : valueResult) (o what : string) : M unit :=
  okL ← query (fun syms => test syms (vr_dt L));
  if negb okL then errorTypeExpected (ast_l Node) o what
  else
    okR ← query (fun syms => test syms (vr_dt R));
    when (negb okR) (errorTypeExpected (ast_r Node) o what).

Definition analyzerBOP (Node : ast) : M (ast * valueResult) :=
  '(l', L) ← visit (ast_l Node);
  '(r', R) ← visit (ast_r Node);
  let Node := setR (setL Node l') r' in
  let o := ast_o Node in
  when (isNumericBOP o) (expectBoth typeIsNumeric Node L R o "numeric type");;
  when (isAssignmentBOP o)
       (expectBoth typeIsAssignment Node L R o "assignable type";;
        when (negb (lvalue L)) (errorLvalue (ast_l Node) o));;
  compatible ← query (fun syms => typeIsCompatible syms (vr_dt L) (vr_dt R));
  DT ← (if compatible : bool
        then query (fun syms => typeDeriveFromTwo syms (vr_dt L) (vr_dt R))
        else errorMismatch (Some Node) o;; mret typeCreateInvalid);
  mret (setDt Node DT, ValueResult DT false).

Definition analyzerComparisonBOP (Node : ast) : M (ast * valueResult) :=
  '(l', L) ← visit (ast_l Node);
  '(r', R) ← visit (ast_r Node);
  let Node := setR (setL Node l') r' in
  let o := ast_o Node in
  (if isOrdinalBOP o
   then expectBoth typeIsOrdinal Node L R o "comparable type"
   else expectBoth typeIsEquality Node L R o "comparable type");;
  compatible ← query (fun syms => typeIsCompatible syms (vr_dt L) (vr_dt R));
  when (negb compatible) (errorMismatch (Some Node) o);;
  b ← types builtinBool;
  let DT := typeCreateBasic b in
  mret (setDt Node DT, ValueResult DT false).

Definition analyzerLogicalBOP (Node : ast) : M (ast * valueResult) :=
  '(l', L) ← visit (ast_l Node);
  '(r', R) ← visit (ast_r Node);
  let Node := setR (setL Node l') r' in
  expectBoth typeIsCondition Node L R (ast_o Node) "condition";;
  b ← types builtinBool;
  let DT := typeCreateBasic b in
  mret (setDt Node DT, ValueResult DT false).

(** [typeIsRecord(DT) || (DT->tag == typePtr && typeIsRecord(DT->base))]. *)
Definition isRecordOrPtrToRecord (syms : symtab) (DT : type) : option bool :=
  typeIsRecord syms DT
  ||? match DT with
      | Ptr b => typeIsRecord syms b
      | _ => Some false
      end.

Definition analyzerMemberBOP (Node : ast) : M (ast * valueResult) :=
  '(l', L) ← visit (ast_l Node);
  let Node := setL Node l' in
  let o := ast_o Node in
  shape ← query (fun syms => isRecordOrPtrToRecord syms (vr_dt L));
  Node ←
    (if negb shape then
       errorTypeExpected (ast_l Node) o
         (if isDerefBOP o then "structure or union pointer"
          else "structure or union type");;
       mret (setDt Node typeCreateInvalid)
     else
       (if isDerefBOP o
        then when (negb (typeIsPtr (vr_dt L)))
                  (errorTypeExpected (ast_l Node) o "pointer")
        else when (typeIsPtr (vr_dt L))
                  (errorTypeExpected (ast_l Node) o "direct structure or union"));;
       recordSym ← typeGetRecordSym (vr_dt L);
       match recordSym with
       | Some rs =>
           r ← deref (ast_r Node);
           field ← symChild rs (ast_literal r);
           let Node := setSymbol Node field in
           match field with
           | Some f =>
               fdt ← symField sym_dt f;
               DT ← deref fdt;
               mret (setDt Node (typeDeepDuplicate DT))
           | None =>
               errorMember o (ast_r Node) (vr_dt L);;
               mret (setDt Node typeCreateInvalid)
           end
       | None => mret (setDt Node typeCreateInvalid)
       end);
  DT ← deref (ast_dt Node);
  mret (Node, ValueResult DT (if isDerefBOP o then true else lvalue L)).

Definition analyzerCommaBOP (Node : ast) : M (ast * valueResult) :=
  '(l', _) ← visit (ast_l Node);
  '(r', R) ← visit (ast_r Node);
  let Node := setR (setL Node l') r' in
  let DT := typeDeepDuplicate (vr_dt R) in
  mret (setDt Node DT, ValueResult DT (lvalue R)).

Definition analyzerUOP (Node : ast) : M (ast * valueResult) :=
  '(r', R) ← visit (ast_r Node);
  let Node := setR Node r' in
  let o := ast_o Node in
  DT ←
    (if streq o "+" || streq o "-" || streq o "++" || streq o "--" || streq o "~" then
       numeric ← query (fun syms => typeIsNumeric syms (vr_dt R));
       if negb numeric then
         errorTypeExpected (ast_r Node) o "numeric type";;
         mret typeCreateInvalid
       else
         when (streq o "++" || streq o "--")
              (when (negb (lvalue R)) (errorLvalue (ast_r Node) o));;
         mret (typeDeriveFrom (vr_dt R))
     else if streq o "!" then
       condition ← query (fun syms => typeIsCondition syms (vr_dt R));
       when (negb condition) (errorTypeExpected (ast_r Node) o "condition");;
       b ← types builtinBool;
       mret (typeCreateBasic b)
     else if streq o "*" then
       if typeIsPtr (vr_dt R) then deref (typeDeriveBase (vr_dt R))
       else
         errorTypeExpected (ast_r Node) o "pointer";;
         mret typeCreateInvalid
     else if streq o "&" then
       when (negb (lvalue R)) (errorLvalue (ast_r Node) o);;
       mret (typeDerivePtr (vr_dt R))
     else
       debugErrorUnhandled "analyzerUOP" "operator";;
       mret typeCreateInvalid);
  mret (setDt Node DT, ValueResult DT (streq o "*")).

Definition analyzerTernary (Node : ast) : M (ast * valueResult) :=
  '(c', Cond) ← visitFirst (ast_childs Node);
  let Node := setFirstChild Node c' in
  '(l', L) ← visit (ast_l Node);
  '(r', R) ← visit (ast_r Node);
  let Node := setR (setL Node l') r' in
  condition ← query (fun syms => typeIsCondition syms (vr_dt Cond));
  when (negb condition)
       (errorTypeExpected (firstChild Node) "ternary ?:" "condition value");;
  compatible ← query (fun syms => typeIsCompatible syms (vr_dt L) (vr_dt R));
  DT ← (if compatible : bool
        then query (fun syms => typeDeriveUnified syms (vr_dt L) (vr_dt R))
        else errorMismatch (Some Node) "ternary ?:";; mret typeCreateInvalid);
  mret (setDt Node DT, ValueResult DT (lvalue L && lvalue R)).

Definition analyzerIndex (Node : ast) : M (ast * valueResult) :=
  '(l', L) ← visit (ast_l Node);
  '(r', R) ← visit (ast_r Node);
  let Node := setR (setL Node l') r' in
  numeric ← query (fun syms => typeIsNumeric syms (vr_dt R));
  when (negb numeric) (errorTypeExpected (ast_r Node) "[]" "numeric index");;
  DT ← (if typeIsArray (vr_dt L) || typeIsPtr (vr_dt L)
        then deref (typeDeriveBase (vr_dt L))
        else errorTypeExpected (ast_l Node) "[]" "array or pointer";;
             mret typeCreateInvalid);
  mret (setDt Node DT, ValueResult DT (lvalue L)).

(** The two loops of [analyzerCall] over the arguments: while
    parameters remain, an argument is visited and checked against its
    parameter; the arguments after the last parameter are visited
    only. [n] is the index of the argument. *)
Fixpoint callArgs (fnSym : option symref) (cs : list ast) (ps : list type)
         (n : Z) {struct cs} : M (list ast) :=
  match cs with
  | [] => mret []
  | Current :: rest =>
      match ps with
      | p :: ps' =>
          '(c', Param) ← analyzerValue Current;
          compatible ← query (fun syms => typeIsCompatible syms (vr_dt Param) p);
          when (negb compatible)
               (match fnSym with
                | Some s => errorNamedParamMismatch (Some c') n s (vr_dt Param)
                | None => errorParamMismatch (Some c') n p (vr_dt Param)
                end);;
          rest' ← callArgs fnSym rest ps' (n + 1);
          mret (c' :: rest')
      | [] =>
          '(c', _) ← analyzerValue Current;
          rest' ← callArgs fnSym rest [] (n + 1);
          mret (c' :: rest')
      end
  end.

(** [Node->l->symbol ? Node->l->symbol->ident : "function"]. *)
Definition calleeIdent (l : ast) : M string :=
  match ast_symbol l with
  | Some s => symField sym_ident s
  | None => mret "function"%string
  end.

(** [typeIsPtr(L.dt) ? L.dt->base : L.dt]. *)
Definition calleeFn (DT : type) : option type :=
  if typeIsPtr DT then base DT else Some DT.

Definition analyzerCall (Node : ast) : M (ast * valueResult) :=
  '(l', L) ← visit (ast_l Node);
  let Node := setL Node l' in
  Node ←
    (if negb (typeIsCallable (vr_dt L)) then
       errorTypeExpected (ast_l Node) "()" "function";;
       mret (setDt Node typeCreateInvalid)
     else if typeIsInvalid (vr_dt L) then
       mret (setDt Node typeCreateInvalid)
     else
       DT ← deref (typeDeriveReturn (vr_dt L));
       let Node := setDt Node DT in
       fn ← deref (calleeFn (vr_dt L));
       if (if variadic fn then params fn >? children Node
           else negb (params fn =? children Node))
       then
         place ← match ast_symbol l' with
                 | Some s => symField sym_ident s
                 | None => mret "function"%string
                 end;
         errorDegree (Some Node) "parameter(s)" (params fn) (children Node) place;;
         mret Node
       else
         cs' ← callArgs (ast_symbol l') (ast_childs Node) (paramTypes fn) 0;
         mret (setChilds Node cs'));
  DT ← deref (ast_dt Node);
  mret (Node, ValueResult DT false).

Definition analyzerCast (Node : ast) : M (ast * valueResult) :=
  '(l', L) ← visitType (ast_l Node);
  '(r', R) ← visit (ast_r Node);
  let Node := setR (setL Node l') r' in
  let DT := typeDeepDuplicate L in
  mret (setDt Node DT, ValueResult DT (lvalue R)).

Definition analyzerSizeof (Node : ast) : M (ast * valueResult) :=
  '(r', _) ← match ast_r Node with
             | Some r =>
                 if bool_decide (ast_tag r = astType)
                 then '(r', _) ← analyzerType r; mret (r', tt)
                 else '(r', _) ← analyzerValue r; mret (r', tt)
             | None => crash
             end;
  let Node := setR Node r' in
  i ← types builtinInt;
  let DT := typeCreateBasic i in
  mret (setDt Node DT, ValueResult DT false).

Definition analyzerLiteral (Node : ast) : M (ast * valueResult) :=
  let litTag := ast_litTag Node in
  DT ←
    (if bool_decide (litTag = literalInt) then
       s ← types builtinInt; mret (typeCreateBasic s)
     else if bool_decide (litTag = literalChar) then
       s ← types builtinChar; mret (typeCreateBasic s)
     else if bool_decide (litTag = literalBool) then
       s ← types builtinBool; mret (typeCreateBasic s)
     else if bool_decide (litTag = literalStr) then
       s ← types builtinChar; mret (typeCreatePtr (typeCreateBasic s))
     else if bool_decide (litTag = literalIdent) then
       s ← deref (ast_symbol Node);
       t ← symField sym_tag s;
       if bool_decide (t = symEnumConstant) || bool_decide (t = symId)
          || bool_decide (t = symParam)
       then
         sdt ← symField sym_dt s;
         match sdt with
         | Some d => mret (typeDeepDuplicate d)
         | None => debugError "analyzerLiteral";; mret typeCreateInvalid
         end
       else
         errorIllegalSymAsValue (Some Node) s;;
         mret typeCreateInvalid
     else
       debugErrorUnhandled "analyzerLiteral" "literal tag";;
       mret typeCreateInvalid);
  mret (setDt Node DT, ValueResult DT (bool_decide (litTag = literalIdent))).

(** [typeIsCompatible(DT, Model)] where [Model] may be null: the model
    is looked at only when [DT] is not Invalid. *)
Definition compatibleWith (syms : symtab) (DT : type) (Model : option type)
  : option bool :=
  match Model with
  | Some m => typeIsCompatible syms DT m
  | None => if typeIsInvalid DT then Some true else None
  end.

(** [Node->tag == astLiteral && Node->litTag == literalInit]. *)
Definition isInit (Node : ast) : bool :=
  bool_decide (ast_tag Node = astLiteral) && bool_decide (ast_litTag Node = literalInit).

(** The loop of the struct case: the elements and the fields of the
    struct, pairwise, until either runs out. *)
Fixpoint initFields (structSym : symref) (cs : list ast) (fields : list symref)
         {struct cs} : M (list ast) :=
  match cs, fields with
  | current :: cs', field :: fields' =>
      '(c', _) ← (if isInit current
                  then
                    fieldDt ← symField sym_dt field;
                    fdt ← deref fieldDt;
                    analyzerInitOrCompoundLiteral current fdt
                  else analyzerValue current);
      cdt ← deref (ast_dt c');
      fieldDt ← symField sym_dt field;
      compatible ← query (fun syms => compatibleWith syms cdt fieldDt);
      when (negb compatible) (errorInitFieldMismatch (Some c') structSym field);;
      rest ← initFields structSym cs' fields';
      mret (c' :: rest)
  | _, _ => mret cs
  end.

(** The loop of the array case, over every element. *)
Fixpoint initElements (elem : option type) (cs : list ast) {struct cs} : M (list ast) :=
  match cs with
  | [] => mret []
  | curNode :: cs' =>
      '(c', curValue) ← (if isInit curNode
                         then b ← deref elem; analyzerInitOrCompoundLiteral curNode b
                         else analyzerValue curNode);
      b ← deref elem;
      compatible ← query (fun syms => typeIsCompatible syms (vr_dt curValue) b);
      when (negb compatible)
           (errorTypeExpectedType (Some c') "array initialization" b);;
      rest ← initElements elem cs';
      mret (c' :: rest)
  end.

(** [DT->tag == typeBasic && DT->basic->tag == symStruct]. *)
Definition isStructType (syms : symtab) (DT : type) : option bool :=
  Some (bool_decide (tag DT = typeBasic))
  &&? ((fun t => bool_decide (t = symStruct)) <$> basicField syms sym_tag DT).

(** The body of [analyzerInitOrCompoundLiteral]. *)
Definition analyzerInitBody (Node : ast) (DT : type) : M (ast * valueResult) :=
  let Node := setDt Node (typeDeepDuplicate DT) in
  Node ←
    (if typeIsInvalid DT then mret Node
     else
       struct ← query (fun syms => isStructType syms DT);
       if struct : bool then
         structSym ← deref (basic DT);
         fields ← symField sym_children structSym;
         let count := Z.of_nat (length fields) in
         if negb (count =? children Node) then
           ident ← symField sym_ident structSym;
           errorDegree (Some Node) "fields" count (children Node) ident;;
           mret Node
         else
           cs' ← initFields structSym (ast_childs Node) fields;
           mret (setChilds Node cs')
       else if typeIsArray DT then
         when (negb (array DT =? -1) && (array DT <? children Node))
              (errorDegree (Some Node) "elements" (array DT) (children Node) "array");;
         cs' ← initElements (base DT) (ast_childs Node);
         mret (setChilds Node cs')
       else
         if negb (children Node =? 1) then
           errorDegree (Some Node) "element" 1 (children Node) "scalar";;
           mret Node
         else
           '(c', R) ← visitFirst (ast_childs Node);
           let Node := setFirstChild Node c' in
           compatible ← query (fun syms => typeIsCompatible syms (vr_dt R) DT);
           when (negb compatible)
                (errorTypeExpectedType (ast_r Node) "variable initialization" DT);;
           mret Node);
  DT' ← deref (ast_dt Node);
  mret (Node, ValueResult DT' false).

(** [analyzerCompoundLiteral] calls [analyzerInitOrCompoundLiteral] on
    its own node: that call is the body above. *)
Definition analyzerCompoundLiteral (Node : ast) : M (ast * valueResult) :=
  '(l', DT) ← visitType (ast_l Node);
  '(Node, _) ← analyzerInitBody (setL Node l') DT;
  s ← deref (ast_symbol Node);
  dt ← deref (ast_dt Node);
  setSymDt s (typeDeepDuplicate dt);;
  mret (Node, ValueResult dt true).

(** The result of a node that cannot be analyzed. *)
Definition invalidResult (Node : ast) : M (ast * valueResult) :=
  mret (setDt Node typeCreateInvalid, ValueResult typeCreateInvalid true).

(** The body of [analyzerValue]. *)
Definition analyzerValueBody (Node : ast) : M (ast * valueResult) :=
  let tag := ast_tag Node in
  let o := ast_o Node in
  if bool_decide (tag = astBOP) then
    if isNumericBOP o || isAssignmentBOP o then analyzerBOP Node
    else if isOrdinalBOP o || isEqualityBOP o then analyzerComparisonBOP Node
    else if isLogicalBOP o then analyzerLogicalBOP Node
    else if isMemberBOP o then analyzerMemberBOP Node
    else if isCommaBOP o then analyzerCommaBOP Node
    else
      debugErrorUnhandled "analyzerValue" "operator";;
      invalidResult Node
  else if bool_decide (tag = astUOP) then analyzerUOP Node
  else if bool_decide (tag = astTOP) then analyzerTernary Node
  else if bool_decide (tag = astIndex) then analyzerIndex Node
  else if bool_decide (tag = astCall) then analyzerCall Node
  else if bool_decide (tag = astCast) then analyzerCast Node
  else if bool_decide (tag = astSizeof) then analyzerSizeof Node
  else if bool_decide (tag = astLiteral) then
    if bool_decide (ast_litTag Node = literalCompound)
    then analyzerCompoundLiteral Node
    else analyzerLiteral Node
  else if bool_decide (tag = astInvalid) then invalidResult Node
  else
    debugErrorUnhandled "analyzerValue" "AST tag";;
    invalidResult Node.
End Analyzer.

(** [analyzerValue] and [analyzerInitOrCompoundLiteral], by recursion on
    the tree. *)
Fixpoint analyzerValue `{typeMasks} `{allocation} (analyzerType : ast -> M (ast * type))
         (Node : ast) {struct Node} : M (ast * valueResult) :=
  analyzerValueBody analyzerType (analyzerValue analyzerType)
                    (analyzerInitOrCompoundLiteral analyzerType) Node
with analyzerInitOrCompoundLiteral `{typeMasks} `{allocation} (analyzerType : ast -> M (ast * type))
         (Node : ast) {struct Node} : type -> M (ast * valueResult) :=
  analyzerInitBody (analyzerValue analyzerType)
                   (analyzerInitOrCompoundLiteral analyzerType) Node.

(** ** Well-formed types *)

(** A type is well formed when every symbol it names is in the heap. *)
Fixpoint typeWf (syms : symtab) (t : type) : bool :=
  match t with
  | Basic s => bool_decide (is_Some (syms !! s))
  | Ptr b | Array b _ => typeWf syms b
  | Function r ps _ => typeWf syms r && forallb (typeWf syms) ps
  | Invalid => true
  end.

(** ** Vocabulary of the statements *)

(** The context after the events [es] were reported. *)
Definition addLog (ctx : analyzerCtx) (es : list event) : analyzerCtx :=
  AnalyzerCtx (ctx_syms ctx) (ctx_types ctx) (ctx_log ctx ++ es).

(** The l-value-required diagnostic. *)
Definition isLvalueEvent (e : event) : bool :=
  match e with Lvalue _ _ => true | _ => false end.

(** The arity diagnostic. *)
Definition isDegreeEvent (e : event) : bool :=
  match e with Degree _ _ _ _ _ => true | _ => false end.

(** Debug output, which is not a diagnostic. *)
Definition isDebugEvent (e : event) : bool :=
  match e with DebugErrorUnhandled _ _ | DebugError _ => true | _ => false end.

(** A binary operator whose spelling is in none of the classes. *)
Definition unknownBOP (o : string) : bool :=
  negb (isNumericBOP o || isAssignmentBOP o)
  && negb (isOrdinalBOP o || isEqualityBOP o)
  && negb (isLogicalBOP o)
  && negb (isMemberBOP o)
  && negb (isCommaBOP o).

(** A tag that [analyzerValue] dispatches on. *)
Definition handledTag (t : astTag) : bool :=
  match t with
  | astBOP | astUOP | astTOP | astIndex | astCall | astCast | astSizeof
  | astLiteral | astInvalid => true
  | _ => false
  end.

(** A node that [analyzerValue] cannot analyze: the invalid node, a node
    of an unhandled tag, or a binary operator of unknown spelling. *)
Definition errorNode (Node : ast) : bool :=
  bool_decide (ast_tag Node = astInvalid)
  || negb (handledTag (ast_tag Node))
  || (bool_decide (ast_tag Node = astBOP) && unknownBOP (ast_o Node)).

(** ** A small program

    The symbols of
    [struct S { int a; int b; }; S s; int x; int f(int, int); int g();]
    and the builtin types, on which the statements below are tried. *)
Module Example.
Local Open Scope positive_scope.

(** The allocations of the example hold zeroes. *)
#[global] Instance zeroed : allocation := Allocation false.

#[global] Instance masks : typeMasks :=
  {| typeNumeric := 1; typeOrdinal := 2; typeEquality := 4;
     typeAssignment := 8; typeCondition := 16 |}.

Definition tVoid : type := Basic 1.
Definition tBool : type := Basic 2.
Definition tChar : type := Basic 3.
Definition tInt : type := Basic 4.
Definition tS : type := Basic 5.

Definition heap : symtab :=
  list_to_map
    [ (1, Sym symType "void" 0 0 [] None);
      (2, Sym symType "bool" 28 1 [] None);
      (3, Sym symType "char" 31 1 [] None);
      (4, Sym symType "int" 31 4 [] None);
      (5, Sym symStruct "S" 0 8 [6; 7] None);
      (6, Sym symId "a" 0 0 [] (Some tInt));
      (7, Sym symId "b" 0 0 [] (Some tInt));
      (8, Sym symId "s" 0 0 [] (Some tS));
      (9, Sym symId "x" 0 0 [] (Some tInt));
      (10, Sym symId "f" 0 0 [] (Some (Function tInt [tInt; tInt] false)));
      (11, Sym symId "g" 0 0 [] (Some (Function tInt [] false))) ].

Definition builtins (i : builtinTypeIndex) : symref :=
  match i with
  | builtinVoid => 1
  | builtinBool => 2
  | builtinChar => 3
  | builtinInt => 4
  end.

Definition ctx0 : analyzerCtx := AnalyzerCtx heap builtins [].

(** A type analyzer that reads the type off a type node that carries
    one. *)
Definition typeOfNode : ast -> M (ast * type) :=
  fun n => DT ← deref (ast_dt n); mret (n, DT).

Definition literal (t : literalTag) (text : string) (s : option symref) : ast :=
  Ast astLiteral t "" text None None [] s None.

Definition ident (name : string) (s : symref) : ast :=
  literal literalIdent name (Some s).

Definition int (text : string) : ast := literal literalInt text None.

Definition init (elements : list ast) : ast :=
  Ast astLiteral literalInit "" "" None None elements None None.

Definition bop (o : string) (l r : ast) : ast :=
  Ast astBOP literalUndefined o "" (Some l) (Some r) [] None None.

Definition uop (o : string) (r : ast) : ast :=
  Ast astUOP literalUndefined o "" None (Some r) [] None None.

Definition call (fn : ast) (args : list ast) : ast :=
  Ast astCall literalUndefined "" "" (Some fn) None args None None.

Definition analyze (Node : ast) : option (ast * valueResult * analyzerCtx) :=
  analyzerValue typeOfNode Node ctx0.
End Example.

(** ** Induction on the tree, and what an analysis keeps *)

(** The induction principle that reaches the positional children and
    the listed ones. *)
Section ast_ind_nested.
Variable P : ast -> Prop.
Hypothesis HAst :
  forall t lt o lit l r cs s d,
    (forall x, l = Some x -> P x) ->
    (forall x, r = Some x -> P x) ->
    Forall P cs ->
    P (Ast t lt o lit l r cs s d).

Fixpoint ast_ind_nested (n : ast) : P n :=
  match n with
  | Ast t lt o lit l r cs s d =>
      HAst t lt o lit l r cs s d
        (match l return forall x, l = Some x -> P x with
         | Some l0 => fun x E =>
             match E in _ = y return match y with Some z => P z | None => True end with
             | eq_refl => ast_ind_nested l0
             end
         | None => fun x E =>
             match E in _ = y return match y with Some z => P z | None => True end with
             | eq_refl => I
             end
         end)
        (match r return forall x, r = Some x -> P x with
         | Some r0 => fun x E =>
             match E in _ = y return match y with Some z => P z | None => True end with
             | eq_refl => ast_ind_nested r0
             end
         | None => fun x E =>
             match E in _ = y return match y with Some z => P z | None => True end with
             | eq_refl => I
             end
         end)
        ((fix go (l : list ast) : Forall P l :=
            match l with
            | [] => Forall_nil_2 P
            | x :: l' => Forall_cons_2 P x l' (ast_ind_nested x) (go l')
            end) cs)
  end.
End ast_ind_nested.

(** A computation keeps the relation [R] between the context it starts
    from and the context it ends in. *)
Definition respects (R : analyzerCtx -> analyzerCtx -> Prop) {A} (m : M A) : Prop :=
  forall ctx a ctx', m ctx = Some (a, ctx') -> R ctx ctx'.

(** A computation ends in a result and a context that satisfy [Q]. *)
Definition ensures {A} (Q : A -> analyzerCtx -> Prop) (m : M A) : Prop :=
  forall ctx a ctx', m ctx = Some (a, ctx') -> Q a ctx'.

(** The log of [ctx'] continues the log of [ctx]. *)
Definition logGrows (ctx ctx' : analyzerCtx) : Prop :=
  exists more, ctx_log ctx' = ctx_log ctx ++ more.

(** Two records of a symbol that differ in the type only. *)
Definition sameButDt (a b : sym) : Prop :=
  sym_tag a = sym_tag b
  /\ sym_ident a = sym_ident b
  /\ sym_typeMask a = sym_typeMask b
  /\ sym_size a = sym_size b
  /\ sym_children a = sym_children b.

(** The heap of [ctx'] has the symbols of the heap of [ctx], each with
    the tag, name, mask, size and children it had, and the table of
    builtin types is the same. *)
Definition symbolsKept (ctx ctx' : analyzerCtx) : Prop :=
  ctx_types ctx' = ctx_types ctx
  /\ forall S : symref,
       match ctx_syms ctx !! S, ctx_syms ctx' !! S with
       | Some a, Some b => sameButDt a b
       | None, None => True
       | _, _ => False
       end.

(** The node comes back with the type of the result. *)
Definition typed (res : ast * valueResult) (_ : analyzerCtx) : Prop :=
  ast_dt (fst res) = Some (vr_dt (snd res)).

(** A node whose result is never an l-value: a call, a sizeof, and a
    binary operator of the numeric, assignment, comparison or logical
    class. *)
Definition rvalueNode (Node : ast) : bool :=
  bool_decide (ast_tag Node = astCall)
  || bool_decide (ast_tag Node = astSizeof)
  || (bool_decide (ast_tag Node = astBOP)
      && (isNumericBOP (ast_o Node) || isAssignmentBOP (ast_o Node)
          || (isOrdinalBOP (ast_o Node) || isEqualityBOP (ast_o Node))
          || isLogicalBOP (ast_o Node))).

(** A binary operator that is dispatched to the comparison or to the
    logical visitor. *)
Definition truthNode (Node : ast) : bool :=
  bool_decide (ast_tag Node = astBOP)
  && negb (isNumericBOP (ast_o Node) || isAssignmentBOP (ast_o Node))
  && ((isOrdinalBOP (ast_o Node) || isEqualityBOP (ast_o Node))
      || isLogicalBOP (ast_o Node)).

(** The syntax of a tree: the tree without what the analyzer writes,
    the derived types and the symbols. *)
Fixpoint skeleton (n : ast) : ast :=
  match n with
  | Ast t lt o lit l r cs _ _ =>
      Ast t lt o lit
          (match l with Some x => Some (skeleton x) | None => None end)
          (match r with Some x => Some (skeleton x) | None => None end)
          (map skeleton cs) None None
  end.

(** A computation gives a node, [proj] of its result, that has the
    syntax of [c]. *)
Definition keeps {A} (proj : A -> ast) (c : ast) (m : M A) : Prop :=
  ensures (fun a _ => skeleton (proj a) = skeleton c) m.

(** A computation gives a list of nodes that have the syntax of [cs],
    one by one. *)
Definition keepsAll (cs : list ast) (m : M (list ast)) : Prop :=
  ensures (fun cs' _ => map skeleton cs' = map skeleton cs) m.

(** ** Rendering *)

(** [sprintf("%s %s", basicStr, embedded)], or [basicStr] alone when
    [embedded] is empty. *)
Definition withEmbedded (basicStr embedded : string) : string :=
  if String.eqb embedded "" then basicStr
  else (basicStr ++ " " ++ embedded)%string.

(** The parameter strings joined by [", "]. *)
Fixpoint joinParams (strs : list string) : string :=
  match strs with
  | [] => ""
  | [s] => s
  | s :: rest => (s ++ ", " ++ joinParams rest)%string
  end.

(** [typeToStr]: the C declarator of a type around [embedded]. The sizes
    of the buffers it allocates are not part of the embedding. *)
Fixpoint typeToStr (syms : symtab) (DT : type) (embedded : string) : option string :=
  match DT with
  | Invalid => Some (withEmbedded "<invalid>" embedded)
  | Basic s =>
      ident ← sym_ident <$> syms !! s;
      Some (withEmbedded ident embedded)
  | Function r ps _ =>
      params ← (if negb (Z.of_nat (length ps) =? 0) then
                  strs ← (fix paramStrs (ps : list type) : option (list string) :=
                            match ps with
                            | [] => Some []
                            | p :: ps' =>
                                str ← typeToStr syms p "";
                                strs ← paramStrs ps';
                                Some (str :: strs)
                            end) ps;
                  Some (joinParams strs)
                else Some "void"%string);
      typeToStr syms r ("(" ++ embedded ++ ")(" ++ params ++ ")")%string
  | Ptr b => typeToStr syms b ("*" ++ embedded)%string
  | Array b n =>
      typeToStr syms b
        (if n =? -1 then (embedded ++ "[]")%string
         else (embedded ++ "[" ++ pretty n ++ "]")%string)
  end.

(** The name that a rendering starts with: the name of the basic type
    that the derivations of the type end in. *)
Fixpoint leafName (syms : symtab) (DT : type) : option string :=
  match DT with
  | Invalid => Some "<invalid>"%string
  | Basic s => sym_ident <$> syms !! s
  | Function r _ _ => leafName syms r
  | Ptr b | Array b _ => leafName syms b
  end.

(** ** The statement driver (analyzer.c) *)

(** What the driver reports: the line that [analyzerError] prints, after
    the location of its node. *)
Inductive driverEvent :=
| Error (Node : ast) (message : string).

(** The context of the driver: the context of the value analyzer, the
    return type that is expected inside the function being analyzed
    ([ctx->returnType], null outside of one), and the reports of the
    driver itself, which are kept apart from the reports of the value
    analyzer. *)
Record driverCtx := DriverCtx {
  d_ctx : analyzerCtx;
  d_returnType : option type;
  d_log : list driverEvent
}.

Definition D (A : Type) : Type := driverCtx -> option (A * driverCtx).

Global Instance D_ret : MRet D := fun A a st => Some (a, st).

Global Instance D_bind : MBind D := fun A B f m st =>
  match m st with
  | Some (a, st') => f a st'
  | None => None
  end.

Definition dcrash {A} : D A := fun _ => None.

Definition dderef {A} (p : option A) : D A :=
  match p with Some a => mret a | None => dcrash end.

(** A computation of the value analyzer, run by the driver. *)
Definition liftM {A} (m : M A) : D A :=
  fun st =>
    match m (d_ctx st) with
    | Some (a, ctx') => Some (a, DriverCtx ctx' (d_returnType st) (d_log st))
    | None => None
    end.

Definition getReturnType : D (option type) :=
  fun st => Some (d_returnType st, st).

Definition setReturnType (rt : option type) : D unit :=
  fun st => Some (tt, DriverCtx (d_ctx st) rt (d_log st)).

Definition dwhen (b : bool) (m : D unit) : D unit := if b then m else mret tt.

Definition report (e : driverEvent) : D unit :=
  fun st => Some (tt, DriverCtx (d_ctx st) (d_returnType st) (d_log st ++ [e])).

(** [analyzerError]: the location of the node is read, the line is
    printed and the error is counted. *)
Definition analyzerError (Node : option ast) (message : string) : D unit :=
  n ← dderef Node; report (Error n message).

(** [typeToStr(DT, "")] on a type pointer. *)
Definition render (DT : option type) : D string :=
  t ← dderef DT; liftM (query (fun syms => typeToStr syms t "")).

Definition analyzerErrorExpected (Node : option ast) (place Expected : string)
           (Found : option type) : D unit :=
  FoundStr ← render Found;
  analyzerError Node (place ++ " expected " ++ Expected ++ ", found " ++ FoundStr).

Definition analyzerErrorExpectedType (Node : option ast) (place : string)
           (Expected Found : option type) : D unit :=
  ExpectedStr ← render Expected;
  analyzerErrorExpected Node place ExpectedStr Found.

Section Driver.
Context `{typeMasks} `{allocation}.

(** The collaborators outside these sources: the type analyzer and the
    declaration analyzer (analyzer-decl.c), and the test of the tags of
    value nodes (ast.c). *)
Variable analyzerType : ast -> M (ast * type).
Variable analyzerDecl : ast -> D ast.
Variable astIsValueTag : astTag -> bool.

(** The recursive entry point, tied below. *)
Variable analyzerNode : ast -> D ast.

(** [analyzerNode(ctx, p)] on a child pointer [p]. *)
Definition visitNode (p : option ast) : D ast :=
  match p with
  | Some n => analyzerNode n
  | None => dcrash
  end.

(** [analyzerValue(ctx, p)] on a child pointer [p]. *)
Definition value (p : option ast) : D (ast * valueResult) :=
  n ← dderef p; liftM (analyzerValue analyzerType n).

(** The condition of a branch or of a loop: it is analyzed, and
    reported when it is no condition. *)
Definition condition (cond : option ast) (place : string) : D ast :=
  '(cond', condRes) ← value cond;
  ok ← liftM (query (fun syms => typeIsCondition syms (vr_dt condRes)));
  dwhen (negb ok)
        (analyzerErrorExpected (Some cond') place "condition" (Some (vr_dt condRes)));;
  mret cond'.

(** The loop of [analyzerModule] and of [analyzerCode]. *)
Fixpoint nodes (cs : list ast) : D (list ast) :=
  match cs with
  | [] => mret []
  | Current :: rest =>
      c' ← analyzerNode Current;
      rest' ← nodes rest;
      mret (c' :: rest')
  end.

Definition analyzerModule (Node : ast) : D ast :=
  cs' ← nodes (ast_childs Node);
  mret (setChilds Node cs').

Definition analyzerUsing (Node : ast) : D ast :=
  r' ← visitNode (ast_r Node);
  mret (setR Node r').

Definition analyzerFnImpl (Node : ast) : D ast :=
  l ← dderef (ast_l Node);
  l' ← analyzerDecl l;
  let Node := setL Node l' in
  proto ← dderef (firstChild l');
  protoSym ← dderef (ast_symbol proto);
  protoDt ← liftM (symField sym_dt protoSym);
  DT ← dderef protoDt;
  dwhen (negb (typeIsFunction DT))
        (s ← dderef (ast_symbol Node);
         found ← liftM (symField sym_dt s);
         analyzerErrorExpected (Some Node) "implementation" "function" found);;
  oldReturn ← getReturnType;
  s ← dderef (ast_symbol Node);
  sdt ← liftM (symField sym_dt s);
  fnDt ← dderef sdt;
  newReturn ← dderef (typeDeriveReturn fnDt);
  setReturnType (Some newReturn);;
  r' ← visitNode (ast_r Node);
  rt ← getReturnType;
  _ ← dderef rt;
  setReturnType oldReturn;;
  mret (setR Node r').

Definition analyzerCode (Node : ast) : D ast :=
  cs' ← nodes (ast_childs Node);
  mret (setChilds Node cs').

Definition analyzerBranch (Node : ast) : D ast :=
  cond' ← condition (firstChild Node) "if";
  let Node := setFirstChild Node cond' in
  l' ← visitNode (ast_l Node);
  let Node := setL Node l' in
  match ast_r Node with
  | Some r => r' ← analyzerNode r; mret (setR Node r')
  | None => mret Node
  end.

Definition analyzerLoop (Node : ast) : D ast :=
  l ← dderef (ast_l Node);
  if bool_decide (ast_tag l = astCode) then
    cond' ← condition (ast_r Node) "do loop";
    code' ← visitNode (ast_l Node);
    mret (setL (setR Node cond') code')
  else
    cond' ← condition (ast_l Node) "do loop";
    code' ← visitNode (ast_r Node);
    mret (setR (setL Node cond') code').

Definition analyzerIter (Node : ast) : D ast :=
  match ast_childs Node with
  | init :: cond :: iter :: rest =>
      init' ← (if bool_decide (ast_tag init = astDecl) then analyzerNode init
               else if negb (bool_decide (ast_tag init = astEmpty))
                    then '(i', _) ← value (Some init); mret i'
                    else mret init);
      cond' ← (if negb (bool_decide (ast_tag cond = astEmpty))
               then condition (Some cond) "for loop"
               else mret cond);
      iter' ← (if negb (bool_decide (ast_tag iter = astEmpty))
               then '(i', _) ← value (Some iter); mret i'
               else mret iter);
      let Node := setChilds Node (init' :: cond' :: iter' :: rest) in
      l' ← visitNode (ast_l Node);
      mret (setL Node l')
  | _ => dcrash
  end.

Definition analyzerReturn (Node : ast) : D ast :=
  match ast_r Node with
  | Some r =>
      '(r', R) ← value (Some r);
      rt ← getReturnType;
      ok ← liftM (query (fun syms => compatibleWith syms (vr_dt R) rt));
      dwhen (negb ok)
            (analyzerErrorExpectedType (Some r') "return" rt (Some (vr_dt R)));;
      mret (setR Node r')
  | None =>
      rt ← getReturnType;
      expected ← dderef rt;
      void ← liftM (query (fun syms => typeIsVoid syms expected));
      dwhen (negb void)
            (v ← liftM (types builtinVoid);
             analyzerErrorExpectedType (Some Node) "return statement" rt
               (Some (typeCreateBasic v)));;
      mret Node
  end.

(** The body of [analyzerNode]. The debug output is not a report. *)
Definition analyzerNodeBody (Node : ast) : D ast :=
  let tag := ast_tag Node in
  if bool_decide (tag = astEmpty) then mret Node
  else if bool_decide (tag = astInvalid) then mret Node
  else if bool_decide (tag = astModule) then analyzerModule Node
  else if bool_decide (tag = astUsing) then analyzerUsing Node
  else if bool_decide (tag = astFnImpl) then analyzerFnImpl Node
  else if bool_decide (tag = astDecl) then analyzerDecl Node
  else if bool_decide (tag = astCode) then analyzerCode Node
  else if bool_decide (tag = astBranch) then analyzerBranch Node
  else if bool_decide (tag = astLoop) then analyzerLoop Node
  else if bool_decide (tag = astIter) then analyzerIter Node
  else if bool_decide (tag = astReturn) then analyzerReturn Node
  else if bool_decide (tag = astBreak) then mret Node
  else if astIsValueTag tag then
    '(Node', _) ← liftM (analyzerValue analyzerType Node); mret Node'
  else mret Node.
End Driver.

Fixpoint analyzerNode `{typeMasks} `{allocation} (analyzerType : ast -> M (ast * type))
         (analyzerDecl : ast -> D ast) (astIsValueTag : astTag -> bool)
         (Node : ast) {struct Node} : D ast :=
  analyzerNodeBody analyzerType analyzerDecl astIsValueTag
    (analyzerNode analyzerType analyzerDecl astIsValueTag) Node.

(** A computation of the driver leaves the expected return type as it
    found it. *)
Definition keepsReturn {A} (m : D A) : Prop :=
  forall st a st', m st = Some (a, st') -> d_returnType st' = d_returnType st.

(** A computation of the driver ends with the expected return type
    [old]. *)
Definition endsWith (old : option type) {A} (m : D A) : Prop :=
  forall st a st', m st = Some (a, st') -> d_returnType st' = old.

(** ** A small program for the driver

    The body of [int h() { return; }] and of a function that returns
    void, with a declaration analyzer that leaves a declaration as it
    is. *)
Module DriverExample.
Definition declOfNode : ast -> D ast := fun n => mret n.

Definition valueTag (t : astTag) : bool :=
  handledTag t && negb (bool_decide (t = astInvalid)).

Definition returnNode : ast :=
  Ast astReturn literalUndefined "" "" None None [] None None.

Definition inFunction (returnType : type) : driverCtx :=
  DriverCtx Example.ctx0 (Some returnType) [].

Definition analyze (Node : ast) (st : driverCtx) : option (ast * driverCtx) :=
  analyzerNode Example.typeOfNode declOfNode valueTag Node st.
End DriverExample.

(** * Properties of the type algebra *)

Section TypeAlgebraFacts.
Context `{typeMasks} `{allocation}.
Variable syms : symtab.

(** On two function types [typeIsEqual] is the call of
    [typeIsCompatible] that the source makes. *)
Lemma typeIsEqual_Function lr lps lv rr rps rv :
  typeIsEqual (Function lr lps lv) (Function rr rps rv)
  = typeIsCompatible syms (Function lr lps lv) (Function rr rps rv).
Proof. reflexivity. Qed.

Lemma typeIsVoid_wf (t : type) :
  typeWf syms t = true -> is_Some (typeIsVoid syms t).
Proof.
  destruct t as [s| | | |]; simpl; intros Hwf; try (eexists; reflexivity).
  apply bool_decide_eq_true in Hwf. destruct Hwf as [sy Hsy].
  unfold typeIsVoid, typeGetSize, basicField. simpl. rewrite Hsy. simpl.
  destruct (bool_decide (sym_tag sy = symType)); simpl; eauto.
Qed.

Lemma paramsAllEqual_refl (eqf : type -> type -> option bool) (ps : list type) :
  Forall (fun p => eqf p p = Some true) ps ->
  paramsAllEqual eqf ps ps = Some true.
Proof.
  induction 1 as [|p ps Hp _ IH]; simpl; [reflexivity|].
  rewrite Hp. simpl. exact IH.
Qed.

Lemma functionMatch_refl (eqf : type -> type -> option bool) r ps :
  eqf r r = Some true ->
  Forall (fun p => eqf p p = Some true) ps ->
  functionMatch eqf (Some r) ps (Some r) ps = Some true.
Proof.
  intros Hr Hps. unfold functionMatch.
  rewrite Z.eqb_refl. simpl.
  rewrite (paramsAllEqual_refl _ _ Hps). simpl. exact Hr.
Qed.

Lemma typeIsEqual_refl (t : type) : typeIsEqual t t = Some true.
Proof.
  induction t as [s|b IH|b n IH|r ps v IHr IHps|] using type_ind_nested;
    simpl; try reflexivity.
  - rewrite bool_decide_eq_true_2 by reflexivity. reflexivity.
  - exact IH.
  - rewrite bool_decide_eq_true_2 by reflexivity. simpl. exact IH.
  - apply functionMatch_refl; assumption.
Qed.

(** C3. Compatibility is reflexive: every well-formed type is
    compatible with itself. The Invalid type is included, being
    compatible with everything. *)
Theorem typeIsCompatible_reflexive (t : type) :
  typeWf syms t = true -> typeIsCompatible syms t t = Some true.
Proof.
  induction t as [s|b IH|b n IH|r ps v IHr IHps|] using type_ind_nested;
    simpl; intros Hwf; try reflexivity.
  - rewrite bool_decide_eq_true_2 by reflexivity. reflexivity.
  - destruct (typeIsVoid_wf b Hwf) as [v Hv]. rewrite Hv.
    rewrite (IH Hwf). destruct v; reflexivity.
  - rewrite bool_decide_eq_true_2 by reflexivity. simpl. exact (IH Hwf).
  - apply functionMatch_refl.
    + apply typeIsEqual_refl.
    + apply Forall_forall. intros p _. apply typeIsEqual_refl.
Qed.

(** C5. Each classification predicate answers true on the Invalid
    type. *)
Theorem classification_true_on_Invalid :
  typeIsNumeric syms Invalid = Some true
  /\ typeIsOrdinal syms Invalid = Some true
  /\ typeIsEquality syms Invalid = Some true
  /\ typeIsAssignment syms Invalid = Some true
  /\ typeIsCondition syms Invalid = Some true
  /\ typeIsPtr Invalid = true
  /\ typeIsArray Invalid = true
  /\ typeIsBasic Invalid = true
  /\ typeIsFunction Invalid = true
  /\ typeIsCallable Invalid = true
  /\ typeIsRecord syms Invalid = Some true
  /\ typeIsVoid syms Invalid = Some true.
Proof. repeat split; reflexivity. Qed.

(** C1, as the code has it. The derivations that look into their
    input give Invalid when an input is Invalid; the pointer
    derivation wraps its input, so the pointer derived from Invalid
    is a pointer to Invalid. *)
Theorem derive_Invalid :
  typeDeriveFrom Invalid = Invalid
  /\ (forall R, typeDeriveFromTwo syms Invalid R = Some Invalid)
  /\ (forall L, typeDeriveFromTwo syms L Invalid = Some Invalid)
  /\ (forall R, typeDeriveUnified syms Invalid R = Some Invalid)
  /\ (forall L, typeDeriveUnified syms L Invalid = Some Invalid)
  /\ typeDeriveBase Invalid = Some Invalid
  /\ typeDeriveReturn Invalid = Some Invalid
  /\ typeDerivePtr Invalid = Ptr Invalid.
Proof.
  repeat split; try reflexivity; intros t;
    unfold typeDeriveFromTwo, typeDeriveUnified;
    destruct t; reflexivity.
Qed.

(** C6, as the code has it. Between two arrays whose element types
    are compatible, the sizes must be equal unless the model's size is
    -1: an unspecified size is accepted in the model only. *)
Theorem typeIsCompatible_Array (a b : type) (n m : Z) :
  typeIsCompatible syms a b = Some true ->
  typeIsCompatible syms (Array a n) (Array b m)
  = Some (bool_decide (n = m) || bool_decide (m = -1)).
Proof.
  intros Hab. simpl. rewrite Hab.
  destruct (bool_decide (n = m) || bool_decide (m = -1)); reflexivity.
Qed.

(** C7, where the code fails. Against a model that is a function
    type of no parameters, an actual that is a basic type, a pointer
    or an array has no parameters either, so the parameter counts
    agree; the comparison of the return types then dereferences the
    actual's null return type, and the check has no result. *)
Theorem typeIsCompatible_zero_param_model_crash (r : type) (v : bool) :
  (forall s, typeIsCompatible syms (Basic s) (Function r [] v) = None)
  /\ (forall b, typeIsCompatible syms (Ptr b) (Function r [] v) = None)
  /\ (forall b n, typeIsCompatible syms (Array b n) (Function r [] v) = None).
Proof. repeat split. Qed.

Lemma paramsAllEqual_dup (ps : list type) :
  Forall (fun p => typeIsEqual (typeDeepDuplicate p) p = Some true) ps ->
  paramsAllEqual typeIsEqual (map typeDeepDuplicate ps) ps = Some true.
Proof.
  induction 1 as [|p ps Hp _ IH]; simpl; [reflexivity|].
  rewrite Hp. simpl. exact IH.
Qed.

(** C8. A deep duplicate is structurally equal to its source. *)
Theorem typeDeepDuplicate_equal (t : type) :
  typeIsEqual (typeDeepDuplicate t) t = Some true.
Proof.
  induction t as [s|b IH|b n IH|r ps v IHr IHps|] using type_ind_nested;
    simpl; try reflexivity.
  - rewrite bool_decide_eq_true_2 by reflexivity. reflexivity.
  - exact IH.
  - rewrite bool_decide_eq_true_2 by reflexivity. simpl. exact IH.
  - unfold functionMatch. rewrite length_map, Z.eqb_refl. simpl.
    rewrite (paramsAllEqual_dup ps IHps). simpl. exact IHr.
Qed.
End TypeAlgebraFacts.

(** C3, on a type of the example: [int (int*, S[3])]. *)
Lemma typeIsCompatible_reflexive_witness :
  typeIsCompatible Example.heap
    (Function Example.tInt [Ptr Example.tInt; Array Example.tS 3] false)
    (Function Example.tInt [Ptr Example.tInt; Array Example.tS 3] false)
  = Some true.
Proof. apply typeIsCompatible_reflexive. reflexivity. Defined.

(** C1, as stated, fails: the pointer derived from the Invalid type is
    not the Invalid type. *)
Lemma derive_pointer_Invalid_not_Invalid :
  typeIsInvalid (typeDerivePtr Invalid) = false
  /\ typeDerivePtr Invalid <> Invalid.
Proof. split; [reflexivity | discriminate]. Qed.

(** C6, on the example: [int[5]] against the model [int[]]. *)
Lemma typeIsCompatible_Array_witness :
  typeIsCompatible Example.heap (Array Example.tInt 5) (Array Example.tInt (-1))
  = Some true.
Proof.
  apply (typeIsCompatible_Array Example.heap Example.tInt Example.tInt 5 (-1)).
  reflexivity.
Defined.

(** C6, as stated, fails: [int[]] is rejected where [int[3]] is
    expected, although the element types are compatible. *)
Lemma unspecified_actual_size_rejected :
  typeIsCompatible Example.heap Example.tInt Example.tInt = Some true
  /\ typeIsCompatible Example.heap (Array Example.tInt (-1)) (Array Example.tInt 3)
     = Some false.
Proof. split; reflexivity. Qed.

(** * Properties of the analyzer *)

Section AnalyzerFacts.
Context `{typeMasks} `{allocation}.
Variable analyzerType : ast -> M (ast * type).

Lemma analyzerValue_unfold (Node : ast) :
  analyzerValue analyzerType Node
  = analyzerValueBody analyzerType (analyzerValue analyzerType)
      (analyzerInitOrCompoundLiteral analyzerType) Node.
Proof. destruct Node; reflexivity. Qed.

Lemma analyzerInitOrCompoundLiteral_unfold (Node : ast) (DT : type) :
  analyzerInitOrCompoundLiteral analyzerType Node DT
  = analyzerInitBody (analyzerValue analyzerType)
      (analyzerInitOrCompoundLiteral analyzerType) Node DT.
Proof. destruct Node; reflexivity. Qed.

Lemma children_setDt (Node : ast) (d : type) :
  children (setDt Node d) = children Node.
Proof. reflexivity. Qed.

(** C2, as the code has it. When the argument count of a call to a
    function that is not variadic differs from the parameter count, the
    arity diagnostic is the one event reported after the callee is
    analyzed, and the node comes back with its arguments as they were:
    no argument is visited. The type of the call is the return type. *)
Theorem call_arity_mismatch (Node l l' : ast) (L : valueResult)
        (ctx ctx1 : analyzerCtx) (fn DT : type) (place : string) :
  ast_tag Node = astCall ->
  ast_l Node = Some l ->
  analyzerValue analyzerType l ctx = Some (l', L, ctx1) ->
  typeIsCallable (vr_dt L) = true ->
  typeIsInvalid (vr_dt L) = false ->
  calleeFn (vr_dt L) = Some fn ->
  typeDeriveReturn (vr_dt L) = Some DT ->
  variadic fn = false ->
  params fn <> children Node ->
  calleeIdent l' ctx1 = Some (place, ctx1) ->
  analyzerValue analyzerType Node ctx
  = Some (setDt (setL Node l') DT, ValueResult DT false,
          addLog ctx1 [Degree (setDt (setL Node l') DT) "parameter(s)"
                         (params fn) (children Node) place])
  /\ ast_childs (setDt (setL Node l') DT) = ast_childs Node.
Proof.
  intros Htag Hl Hcallee Hcallable Hinvalid Hfn Hret Hvar Hcount Hplace.
  split; [|reflexivity].
  rewrite analyzerValue_unfold. unfold analyzerValueBody.
  rewrite Htag. simpl.
  unfold analyzerCall, mbind, M_bind. rewrite Hl. simpl. rewrite Hcallee.
  rewrite Hcallable, Hinvalid, Hret, Hfn. simpl. rewrite Hvar.
  change (children (setDt (setL Node l') DT)) with (children Node).
  destruct (Z.eqb_spec (params fn) (children Node)) as [E|_]; [contradiction|].
  unfold calleeIdent in Hplace. simpl. rewrite Hplace. reflexivity.
Qed.

Lemma error_node_result (Node : ast) (ctx : analyzerCtx) :
  errorNode Node = true ->
  exists dbg,
    analyzerValue analyzerType Node ctx
    = Some (setDt Node Invalid, ValueResult Invalid true, addLog ctx dbg)
    /\ forallb isDebugEvent dbg = true.
Proof.
  unfold errorNode. intros Herr.
  rewrite analyzerValue_unfold. unfold analyzerValueBody.
  assert (Hnil : ctx = addLog ctx []).
  { destruct ctx. unfold addLog. simpl. rewrite app_nil_r. reflexivity. }
  destruct (ast_tag Node) eqn:Etag; simpl in Herr; try discriminate;
    simpl;
    try (exists [DebugErrorUnhandled "analyzerValue" "AST tag"];
         split; reflexivity);
    try (exists []; split; [rewrite <- Hnil; reflexivity | reflexivity]).
  unfold unknownBOP in Herr.
  repeat (apply andb_true_iff in Herr; destruct Herr as [Herr ?]).
  repeat match goal with
         | Hx : negb _ = true |- _ => apply negb_true_iff in Hx; rewrite Hx
         end.
  exists [DebugErrorUnhandled "analyzerValue" "operator"]. split; reflexivity.
Qed.

Lemma addLog_addLog (ctx : analyzerCtx) (es fs : list event) :
  addLog (addLog ctx es) fs = addLog ctx (es ++ fs).
Proof. unfold addLog. simpl. rewrite app_assoc. reflexivity. Qed.

Lemma addLog_nil (ctx : analyzerCtx) : addLog ctx [] = ctx.
Proof. destruct ctx. unfold addLog. simpl. rewrite app_nil_r. reflexivity. Qed.

(** The operand of [&], [++] or [--] that is an error node raises no
    diagnostic at all. *)
Lemma error_node_under_UOP (Node P : ast) (ctx : analyzerCtx) :
  errorNode Node = true ->
  ast_tag P = astUOP ->
  ast_r P = Some Node ->
  ast_o P = "&"%string \/ ast_o P = "++"%string \/ ast_o P = "--"%string ->
  exists P' v dbg,
    analyzerValue analyzerType P ctx = Some (P', v, addLog ctx dbg)
    /\ forallb isDebugEvent dbg = true.
Proof.
  intros Herr Htag Hr Ho.
  destruct (error_node_result Node ctx Herr) as (dbg & Hrun & Hdbg).
  rewrite analyzerValue_unfold. unfold analyzerValueBody.
  rewrite Htag. simpl.
  unfold analyzerUOP, mbind, M_bind. rewrite Hr. simpl. rewrite Hrun.
  destruct Ho as [Ho|[Ho|Ho]]; rewrite Ho; simpl;
    eexists _, _, dbg; (split; [reflexivity | exact Hdbg]).
Qed.

(** After both operands, the checks of [analyzerBOP] on an Invalid left
    operand that is an l-value report no l-value diagnostic. *)
Lemma expectBoth_no_Lvalue (test : symtab -> type -> option bool)
      (Node : ast) (L R : valueResult) (o what : string)
      (ctx ctx' : analyzerCtx) :
  expectBoth test Node L R o what ctx = Some (tt, ctx') ->
  exists more, ctx' = addLog ctx more /\ existsb isLvalueEvent more = false.
Proof.
  unfold expectBoth, mbind, M_bind, query, when, errorTypeExpected, deref.
  destruct (test (ctx_syms ctx) (vr_dt L)) as [okL|]; [|discriminate].
  destruct okL; simpl.
  - destruct (test (ctx_syms ctx) (vr_dt R)) as [okR|]; [|discriminate].
    destruct okR; simpl.
    + intros [= <-]. exists []. rewrite addLog_nil. split; reflexivity.
    + destruct (ast_r Node) as [r|]; simpl; [|discriminate].
      intros [= <-]. eexists [_]. split; reflexivity.
  - destruct (ast_l Node) as [l|]; simpl; [|discriminate].
    intros [= <-]. eexists [_]. split; reflexivity.
Qed.

Lemma typeIsCompatible_Invalid_l (syms : symtab) (Model : type) :
  typeIsCompatible syms Invalid Model = Some true.
Proof. destruct Model; reflexivity. Qed.

(** The left operand of an assignment that is an error node: whatever
    the analysis of the assignment reports after its right operand, it
    is no l-value diagnostic. *)
Lemma error_node_under_assignment (Node P : ast) (res : ast * valueResult)
      (ctx ctx' : analyzerCtx) :
  errorNode Node = true ->
  ast_tag P = astBOP ->
  isAssignmentBOP (ast_o P) = true ->
  ast_l P = Some Node ->
  analyzerValue analyzerType P ctx = Some (res, ctx') ->
  exists dbg r r' R ctxR more,
    forallb isDebugEvent dbg = true
    /\ ast_r P = Some r
    /\ analyzerValue analyzerType r (addLog ctx dbg) = Some (r', R, ctxR)
    /\ ctx' = addLog ctxR more
    /\ existsb isLvalueEvent more = false.
Proof.
  intros Herr Htag Hassign Hl.
  destruct (error_node_result Node ctx Herr) as (dbg & Hrun & Hdbg).
  rewrite analyzerValue_unfold. unfold analyzerValueBody.
  rewrite Htag. simpl. rewrite Hassign, orb_true_r.
  unfold analyzerBOP, mbind, M_bind. rewrite Hl. simpl. rewrite Hrun.
  destruct (ast_r P) as [r|]; simpl; [|discriminate].
  destruct (analyzerValue analyzerType r (addLog ctx dbg))
    as [[[r' R] ctxR]|] eqn:Er; [|discriminate].
  set (N := setR (setL P (setDt Node Invalid)) r').
  set (L := ValueResult Invalid true).
  destruct (when (isNumericBOP (ast_o P)) _ ctxR) as [[[] c1]|] eqn:E1;
    [|discriminate].
  assert (H1 : exists m1, c1 = addLog ctxR m1 /\ existsb isLvalueEvent m1 = false).
  { destruct (isNumericBOP (ast_o P)); unfold when in E1.
    - exact (expectBoth_no_Lvalue _ _ _ _ _ _ _ _ E1).
    - unfold mret, M_ret in E1. injection E1 as <-.
      exists []. rewrite addLog_nil. split; reflexivity. }
  destruct H1 as (m1 & -> & Hm1).
  rewrite Hassign. unfold when.
  destruct (expectBoth typeIsAssignment N L R (ast_o P) "assignable type"
                       (addLog ctxR m1)) as [[[] c2]|] eqn:E2; [|discriminate].
  destruct (expectBoth_no_Lvalue _ _ _ _ _ _ _ _ E2) as (m2 & -> & Hm2).
  unfold query. simpl. rewrite typeIsCompatible_Invalid_l. simpl.
  intros [= _ <-].
  exists dbg, r, r', R, ctxR, (m1 ++ m2).
  repeat split; try assumption; try reflexivity.
  - apply addLog_addLog.
  - rewrite existsb_app, Hm1, Hm2. reflexivity.
Qed.

(** C9. A node that [analyzerValue] cannot analyze (the invalid node,
    a node of an unhandled tag, a binary operator of unknown spelling)
    gets the Invalid type and counts as an l-value; no diagnostic is
    reported for it. Where an l-value is required, it raises no
    l-value diagnostic: none as the operand of [&], [++] or [--], and
    none as the left operand of an assignment. *)
Theorem error_node_is_lvalue (Node : ast) (ctx : analyzerCtx) :
  errorNode Node = true ->
  (exists dbg,
     analyzerValue analyzerType Node ctx
     = Some (setDt Node Invalid, ValueResult Invalid true, addLog ctx dbg)
     /\ forallb isDebugEvent dbg = true)
  /\ (forall P : ast,
        ast_tag P = astUOP ->
        ast_r P = Some Node ->
        ast_o P = "&"%string \/ ast_o P = "++"%string \/ ast_o P = "--"%string ->
        exists P' v dbg,
          analyzerValue analyzerType P ctx = Some (P', v, addLog ctx dbg)
          /\ forallb isDebugEvent dbg = true)
  /\ (forall (P : ast) (res : ast * valueResult) (ctx' : analyzerCtx),
        ast_tag P = astBOP ->
        isAssignmentBOP (ast_o P) = true ->
        ast_l P = Some Node ->
        analyzerValue analyzerType P ctx = Some (res, ctx') ->
        exists dbg r r' R ctxR more,
          forallb isDebugEvent dbg = true
          /\ ast_r P = Some r
          /\ analyzerValue analyzerType r (addLog ctx dbg) = Some (r', R, ctxR)
          /\ ctx' = addLog ctxR more
          /\ existsb isLvalueEvent more = false).
Proof.
  intros Herr. split; [|split].
  - apply error_node_result. exact Herr.
  - intros P Htag Hr Ho. exact (error_node_under_UOP Node P ctx Herr Htag Hr Ho).
  - intros P res ctx' Htag Hassign Hl Hrun.
    exact (error_node_under_assignment Node P res ctx ctx' Herr Htag Hassign Hl Hrun).
Qed.

End AnalyzerFacts.

(** * The statements on the example *)

(** C2, on [f(&3)] for [int f(int, int)]. *)
Lemma call_arity_mismatch_witness :
  let fty := Function Example.tInt [Example.tInt; Example.tInt] false in
  let Node := Example.call (Example.ident "f" 10) [Example.uop "&" (Example.int "3")] in
  let Node' := setDt (setL Node (setDt (Example.ident "f" 10) fty)) Example.tInt in
  Example.analyze Node
  = Some (Node', ValueResult Example.tInt false,
          addLog Example.ctx0 [Degree Node' "parameter(s)" 2 1 "f"])
  /\ ast_childs Node' = [Example.uop "&" (Example.int "3")].
Proof.
  intros fty Node Node'.
  refine (call_arity_mismatch Example.typeOfNode Node
            (Example.ident "f" 10) (setDt (Example.ident "f" 10) fty)
            (ValueResult fty true) Example.ctx0 Example.ctx0 fty Example.tInt "f"
            _ _ _ _ _ _ _ _ _ _).
  - reflexivity.
  - reflexivity.
  - reflexivity.
  - reflexivity.
  - reflexivity.
  - reflexivity.
  - reflexivity.
  - reflexivity.
  - vm_compute. lia.
  - reflexivity.
Defined.

(** C2, as stated, fails on [f(&3)] for [int f(int, int)]: the argument
    comes back without a derived type, and the l-value diagnostic that
    its analysis reports is not among the events of the call. *)
Lemma call_arity_mismatch_skips_arguments :
  match Example.analyze
          (Example.call (Example.ident "f" 10) [Example.uop "&" (Example.int "3")])
  with
  | Some (Node', _, ctx') =>
      ast_childs Node' = [Example.uop "&" (Example.int "3")]
      /\ map ast_dt (ast_childs Node') = [None]
      /\ map isDegreeEvent (ctx_log ctx') = [true]
      /\ existsb isLvalueEvent (ctx_log ctx') = false
  | None => False
  end
  /\ match Example.analyze (Example.uop "&" (Example.int "3")) with
     | Some (_, _, ctx') => existsb isLvalueEvent (ctx_log ctx') = true
     | None => False
     end.
Proof. vm_compute. repeat split. Qed.

(** C4, as stated, fails. On [s->a] for the direct record [s], and on
    [(&s).a] for the pointer [&s], the shape that the operator requires
    is not there; the diagnostic asks for a pointer, or for a direct
    structure or union, and the type of the node is the type of the
    field, not Invalid. *)
Lemma member_wrong_indirection_not_Invalid :
  match Example.analyze
          (Example.bop "->" (Example.ident "s" 8) (Example.ident "a" 6))
  with
  | Some (Node', v, ctx') =>
      vr_dt v = Example.tInt
      /\ ast_dt Node' = Some Example.tInt
      /\ ctx_log ctx'
         = [TypeExpected (setDt (Example.ident "s" 8) Example.tS) "->" "pointer"]
  | None => False
  end
  /\ match Example.analyze
             (Example.bop "." (Example.uop "&" (Example.ident "s" 8))
                          (Example.ident "a" 6))
     with
     | Some (Node', v, ctx') =>
         vr_dt v = Example.tInt
         /\ ast_dt Node' = Some Example.tInt
         /\ exists l', ctx_log ctx' = [TypeExpected l' "." "direct structure or union"]
     | None => False
     end.
Proof. vm_compute. repeat split. eexists. reflexivity. Qed.

(** C9, on the invalid node. *)
Lemma error_node_is_lvalue_witness :
  let Node := Ast astInvalid literalUndefined "" "" None None [] None None in
  exists dbg,
    Example.analyze Node
    = Some (setDt Node Invalid, ValueResult Invalid true, addLog Example.ctx0 dbg)
    /\ forallb isDebugEvent dbg = true.
Proof.
  intros Node.
  exact (proj1 (error_node_is_lvalue Example.typeOfNode Node Example.ctx0 eq_refl)).
Defined.

(** C7, in the analyzer: [x == g] for [int x] and [int g()] has no
    result. *)
Lemma comparison_with_zero_param_function_crashes :
  Example.analyze (Example.bop "==" (Example.ident "x" 9) (Example.ident "g" 11))
  = None.
Proof. reflexivity. Qed.

(** C1, in the analyzer: the address of an invalid node has the type
    pointer to Invalid, and no diagnostic is reported. *)
Lemma address_of_invalid_node :
  let Node := Ast astInvalid literalUndefined "" "" None None [] None None in
  match Example.analyze (Example.uop "&" Node) with
  | Some (_, v, ctx') => vr_dt v = Ptr Invalid /\ ctx_log ctx' = []
  | None => False
  end.
Proof. vm_compute. split; reflexivity. Qed.

(** * Further properties of the type algebra *)

Section TypeAlgebraMore.
Context `{typeMasks} `{allocation}.
Variable syms : symtab.

Lemma paramsAllEqual_total (eqf : type -> type -> option bool) (ps qs : list type) :
  Forall (fun p => forall q, is_Some (eqf p q)) ps ->
  length ps = length qs ->
  is_Some (paramsAllEqual eqf ps qs).
Proof.
  intros Hps. revert qs.
  induction Hps as [|p ps Hp _ IH]; intros [|q qs] Hlen; simpl in *;
    try discriminate; eauto.
  destruct (Hp q) as [[] ->]; simpl; eauto.
Qed.

Lemma typeIsEqual_defined (L R : type) : is_Some (typeIsEqual L R).
Proof.
  revert R.
  induction L as [s|b IH|b n IH|r ps v IHr IHps|] using type_ind_nested;
    intros [s'|b'|b' n'|r' ps' v'|]; simpl; eauto.
  - destruct (bool_decide (n = n')); simpl; eauto.
  - unfold functionMatch.
    destruct (Z.eqb_spec (Z.of_nat (length ps')) (Z.of_nat (length ps)))
      as [E|E]; simpl; eauto.
    destruct (paramsAllEqual_total typeIsEqual ps ps' IHps) as [[] ->];
      simpl; eauto; lia.
Qed.

Lemma paramsAllEqual_sym (eqf : type -> type -> option bool) (ps qs : list type) :
  Forall (fun p => forall q, eqf p q = eqf q p) ps ->
  length ps = length qs ->
  paramsAllEqual eqf ps qs = paramsAllEqual eqf qs ps.
Proof.
  intros Hps. revert qs.
  induction Hps as [|p ps Hp _ IH]; intros [|q qs] Hlen; simpl in *;
    try discriminate; try reflexivity.
  rewrite (Hp q). destruct (eqf q p) as [[]|]; simpl; try reflexivity.
  apply IH. lia.
Qed.

Lemma typeIsEqual_swap (L R : type) : typeIsEqual L R = typeIsEqual R L.
Proof.
  revert R.
  induction L as [s|b IH|b n IH|r ps v IHr IHps|] using type_ind_nested;
    intros [s'|b'|b' n'|r' ps' v'|]; simpl; try reflexivity.
  - f_equal. apply bool_decide_ext. split; congruence.
  - apply IH.
  - rewrite (IH b').
    rewrite (bool_decide_ext (n = n') (n' = n)) by (split; congruence).
    reflexivity.
  - unfold functionMatch.
    rewrite (Z.eqb_sym (Z.of_nat (length ps)) (Z.of_nat (length ps'))).
    destruct (Z.eqb_spec (Z.of_nat (length ps')) (Z.of_nat (length ps)))
      as [E|E]; simpl; [|reflexivity].
    rewrite (paramsAllEqual_sym typeIsEqual ps ps' IHps) by lia.
    destruct (paramsAllEqual typeIsEqual ps' ps) as [[]|]; simpl;
      try reflexivity.
    apply IHr.
Qed.

(** [typeIsEqual] is a total and symmetric test. It has a result on
    every two types, as it never reads a field that the tags it has
    compared do not set, and the two orders of the operands give the
    same answer. *)
Theorem typeIsEqual_total_symmetric (L R : type) :
  is_Some (typeIsEqual L R) /\ typeIsEqual L R = typeIsEqual R L.
Proof.
  split.
  - apply typeIsEqual_defined.
  - apply typeIsEqual_swap.
Qed.

Lemma typeIsCompatible_Invalid_r (DT : type) :
  typeIsCompatible syms DT Invalid = Some true.
Proof. destruct DT; reflexivity. Qed.

Lemma typeIsEqual_compatible (L R : type) :
  typeWf syms R = true ->
  typeIsEqual L R = Some true ->
  typeIsCompatible syms L R = Some true.
Proof.
  revert R.
  induction L as [s|b IH|b n IH|r ps v IHr IHps|] using type_ind_nested;
    intros [s'|b'|b' n'|r' ps' v'|] Hwf; simpl; try discriminate;
    try reflexivity; simpl in Hwf.
  - intros [= E]. apply bool_decide_eq_true in E. injection E as ->.
    rewrite bool_decide_eq_true_2 by reflexivity. reflexivity.
  - intros E. rewrite (IH b' Hwf E).
    destruct (typeIsVoid_wf syms b' Hwf) as [v ->]. destruct v; reflexivity.
  - destruct (bool_decide_reflect (n = n')) as [->|]; simpl; [|discriminate].
    intros E. rewrite (IH b' Hwf E).
    rewrite ?bool_decide_eq_true_2 by reflexivity. reflexivity.
  - intros E. exact E.
Qed.

(** Two types that [typeIsEqual] accepts are compatible in both
    directions, when the symbols they name are in the heap. *)
Theorem typeIsEqual_compatible_both (L R : type) :
  typeWf syms L = true ->
  typeWf syms R = true ->
  typeIsEqual L R = Some true ->
  typeIsCompatible syms L R = Some true
  /\ typeIsCompatible syms R L = Some true.
Proof.
  intros HL HR E. split.
  - apply typeIsEqual_compatible; assumption.
  - apply typeIsEqual_compatible; [assumption|].
    rewrite typeIsEqual_swap. exact E.
Qed.

(** [typeDeriveUnified] is [typeDeriveFromTwo]: both of its branches
    duplicate the left operand, so the unified type of two compatible
    types is always the left one. *)
Theorem typeDeriveUnified_left_biased (L R : type) :
  typeDeriveUnified syms L R = typeDeriveFromTwo syms L R.
Proof.
  unfold typeDeriveUnified.
  destruct (typeIsInvalid L || typeIsInvalid R) eqn:Ei.
  - unfold typeDeriveFromTwo. rewrite Ei. reflexivity.
  - destruct (typeIsCompatible syms L R) as [c|] eqn:Ec; simpl.
    + destruct (typeIsEqual_defined L R) as [e ->]. simpl.
      destruct e; [|reflexivity].
      unfold typeDeriveFromTwo. rewrite Ei, Ec. reflexivity.
    + unfold typeDeriveFromTwo. rewrite Ei, Ec. reflexivity.
Qed.

(** A model that is a pointer to a builtin type of size zero accepts
    every pointer and every array, whatever they point to or hold: the
    pointee of the actual is not looked at. *)
Theorem void_pointer_accepts_pointers_and_arrays
        (v : symref) (sy : sym) (a : type) (n : Z) :
  syms !! v = Some sy ->
  sym_tag sy = symType ->
  sym_size sy = 0 ->
  typeIsCompatible syms (Ptr a) (Ptr (Basic v)) = Some true
  /\ typeIsCompatible syms (Array a n) (Ptr (Basic v)) = Some true.
Proof.
  intros Hv Htag Hsize.
  assert (Hvoid : typeIsVoid syms (Basic v) = Some true).
  { unfold typeIsVoid, typeGetSize, basicField. simpl. rewrite Hv. simpl.
    rewrite Htag. simpl. rewrite Hsize. reflexivity. }
  split; simpl; rewrite Hvoid; reflexivity.
Qed.

(** Pointers and basic types convert into each other exactly when the
    basic type is numeric: a basic actual fits a pointer model, and a
    pointer actual fits a basic model, iff the basic symbol has the
    numeric bit. The pointees are not looked at. *)
Theorem pointer_integer_interconversion (s : symref) (sy : sym) (a b : type) :
  syms !! s = Some sy ->
  typeIsCompatible syms (Basic s) (Ptr b)
  = Some (maskHas (sym_typeMask sy) typeNumeric)
  /\ typeIsCompatible syms (Ptr a) (Basic s)
     = Some (maskHas (sym_typeMask sy) typeNumeric).
Proof.
  intros Hs. split; simpl; unfold basicField; simpl; rewrite Hs; reflexivity.
Qed.

(** [typeDeriveBase] has a result exactly when the condition that it
    asserts holds: its input is a pointer, an array or Invalid. *)
Theorem typeDeriveBase_defined (DT : type) :
  is_Some (typeDeriveBase DT) <-> typeIsPtr DT || typeIsArray DT = true.
Proof.
  destruct DT; simpl; split; intros Hx; try reflexivity; eauto;
    try discriminate; destruct Hx as [? [=]].
Qed.

(** On a callable type that is not Invalid, the function type that
    [analyzerCall] checks the arguments against exists and is a function
    type or Invalid, and the return type is derived from it without a
    crash. *)
Theorem typeDeriveReturn_callable (DT : type) :
  typeIsCallable DT = true ->
  typeIsInvalid DT = false ->
  exists fn,
    calleeFn DT = Some fn
    /\ typeIsFunction fn = true
    /\ typeDeriveReturn DT = typeDeriveReturn fn
    /\ is_Some (typeDeriveReturn fn).
Proof.
  destruct DT as [s|b|b n|r ps v|]; simpl; try discriminate.
  - destruct b as [s|b|b n|r ps v|]; simpl; try discriminate; intros _ _.
    + exists (Function r ps v). repeat split. simpl. eauto.
    + exists Invalid. repeat split. simpl. eauto.
  - intros _ _. exists (Function r ps v). repeat split. simpl. eauto.
Qed.
End TypeAlgebraMore.

(** * What an analysis keeps *)

Section Frame.
Context `{typeMasks} `{allocation}.
Variable analyzerType : ast -> M (ast * type).
Variable R : analyzerCtx -> analyzerCtx -> Prop.
Hypothesis R_refl : forall ctx, R ctx ctx.
Hypothesis R_trans : forall a b c, R a b -> R b c -> R a c.
Hypothesis R_emit : forall ctx e, R ctx (addLog ctx [e]).
Hypothesis R_setSymDt :
  forall ctx S DT ctx', setSymDt S DT ctx = Some (tt, ctx') -> R ctx ctx'.
Hypothesis R_analyzerType : forall n, respects R (analyzerType n).

Lemma respects_ret {A} (a : A) : respects R (mret a).
Proof. intros ctx a' ctx' [= _ <-]. apply R_refl. Qed.

Lemma respects_bind {A B} (m : M A) (f : A -> M B) :
  respects R m -> (forall a, respects R (f a)) -> respects R (m ≫= f).
Proof.
  intros Hm Hf ctx b ctx'. unfold mbind, M_bind.
  destruct (m ctx) as [[a c]|] eqn:E; [|discriminate].
  intros Hk. exact (R_trans _ _ _ (Hm _ _ _ E) (Hf a _ _ _ Hk)).
Qed.

Lemma respects_crash {A} : respects R (@crash A).
Proof. intros ctx a ctx' [=]. Qed.

Lemma respects_deref {A} (p : option A) : respects R (deref p).
Proof. destruct p; [apply respects_ret | apply respects_crash]. Qed.

Lemma respects_query {A} (f : symtab -> option A) : respects R (query f).
Proof.
  intros ctx a ctx'. unfold query.
  destruct (f (ctx_syms ctx)); intros [= _ <-]. apply R_refl.
Qed.

Lemma respects_emit (e : event) : respects R (emit e).
Proof. intros ctx a ctx' [= _ <-]. apply R_emit. Qed.

Lemma respects_types (i : builtinTypeIndex) : respects R (types i).
Proof. intros ctx a ctx' [= _ <-]. apply R_refl. Qed.

Lemma respects_setSymDt (S : symref) (DT : type) : respects R (setSymDt S DT).
Proof. intros ctx [] ctx' E. exact (R_setSymDt _ _ _ _ E). Qed.

Lemma respects_when (b : bool) (m : M unit) : respects R m -> respects R (when b m).
Proof. destruct b; [auto | intros _; apply respects_ret]. Qed.

Ltac respects_step :=
  lazymatch goal with
  | |- respects _ (mret _) => apply respects_ret
  | |- respects _ crash => apply respects_crash
  | |- respects _ (deref _) => apply respects_deref
  | |- respects _ (query _) => apply respects_query
  | |- respects _ (emit _) => apply respects_emit
  | |- respects _ (types _) => apply respects_types
  | |- respects _ (setSymDt _ _) => apply respects_setSymDt
  | |- respects _ (analyzerType _) => apply R_analyzerType
  | |- respects _ (_ ≫= _) => apply respects_bind; [|intros]
  | |- respects _ (when _ _) => apply respects_when
  | |- respects _ (if ?b then _ else _) => destruct b
  | |- respects _ (match ?x with _ => _ end) => destruct x eqn:?
  end.

Lemma respects_error_primitives :
  (forall n p e, respects R (errorTypeExpected n p e))
  /\ (forall n p e, respects R (errorTypeExpectedType n p e))
  /\ (forall n o, respects R (errorLvalue n o))
  /\ (forall n o, respects R (errorMismatch n o))
  /\ (forall n t e f p, respects R (errorDegree n t e f p))
  /\ (forall n i e f, respects R (errorParamMismatch n i e f))
  /\ (forall n i s f, respects R (errorNamedParamMismatch n i s f))
  /\ (forall o n r, respects R (errorMember o n r))
  /\ (forall n s f, respects R (errorInitFieldMismatch n s f))
  /\ (forall n s, respects R (errorIllegalSymAsValue n s))
  /\ (forall f w, respects R (debugErrorUnhandled f w))
  /\ (forall f, respects R (debugError f)).
Proof.
  unfold errorTypeExpected, errorTypeExpectedType, errorLvalue, errorMismatch,
    errorDegree, errorParamMismatch, errorNamedParamMismatch, errorMember,
    errorInitFieldMismatch, errorIllegalSymAsValue, debugErrorUnhandled, debugError.
  repeat split; intros; repeat respects_step.
Qed.

Section Visitors.
Variable recV : ast -> M (ast * valueResult).
Variable recI : ast -> type -> M (ast * valueResult).

Local Abbreviation good c :=
  (respects R (recV c) /\ forall DT, respects R (recI c DT)).

Ltac respects_rec :=
  match goal with
  | Hg : forall c, _ = Some c -> good c |- respects R (recV ?c) =>
      apply Hg; first [assumption | reflexivity]
  | Hg : forall c, _ = Some c -> good c |- respects R (recI ?c _) =>
      apply Hg; first [assumption | reflexivity]
  | Hg : Forall _ (?c :: _) |- respects R (recV ?c) => apply (Forall_inv Hg)
  | Hg : Forall _ (?c :: _) |- respects R (recI ?c _) => apply (Forall_inv Hg)
  | Hg : good ?c |- respects R (recV ?c) => apply Hg
  | Hg : good ?c |- respects R (recI ?c _) => apply Hg
  end.

Ltac respects_auto :=
  unfold visit, visitFirst, visitType, expectBoth, invalidResult, calleeIdent,
    symField, symChild, typeGetRecordSym,
    errorTypeExpected, errorTypeExpectedType, errorLvalue, errorMismatch,
    errorDegree, errorParamMismatch, errorNamedParamMismatch, errorMember,
    errorInitFieldMismatch, errorIllegalSymAsValue, debugErrorUnhandled, debugError;
  repeat (cbn [ast_l ast_r ast_childs ast_tag ast_o ast_dt ast_symbol
               ast_litTag ast_literal setL setR setDt setChilds setFirstChild
               setSymbol];
          first [ respects_step | respects_rec ]).

Lemma respects_callArgs (fnSym : option symref) (cs : list ast) :
  Forall (fun c => good c) cs ->
  forall ps n, respects R (callArgs recV fnSym cs ps n).
Proof.
  induction 1 as [|c cs Hc _ IH]; intros ps n; simpl.
  - apply respects_ret.
  - destruct ps as [|p ps]; respects_auto; apply IH.
Qed.

Lemma respects_initFields (structSym : symref) (cs : list ast) :
  Forall (fun c => good c) cs ->
  forall fields, respects R (initFields recV recI structSym cs fields).
Proof.
  induction 1 as [|c cs Hc _ IH]; intros fields; simpl.
  - apply respects_ret.
  - destruct fields as [|f fields]; respects_auto; apply IH.
Qed.

Lemma respects_initElements (elem : option type) (cs : list ast) :
  Forall (fun c => good c) cs ->
  respects R (initElements recV recI elem cs).
Proof.
  induction 1 as [|c cs Hc _ IH]; simpl.
  - apply respects_ret.
  - respects_auto; apply IH.
Qed.

Lemma respects_analyzerInitBody (Node : ast) (DT : type) :
  Forall (fun c => good c) (ast_childs Node) ->
  respects R (analyzerInitBody recV recI Node DT).
Proof.
  intros Hcs. unfold analyzerInitBody, isStructType.
  respects_auto;
    first [ apply respects_initFields; assumption
          | apply respects_initElements; assumption ].
Qed.

Lemma respects_analyzerBOP (Node : ast) :
  (forall c, ast_l Node = Some c -> good c) ->
  (forall c, ast_r Node = Some c -> good c) ->
  respects R (analyzerBOP recV Node).
Proof. intros Hl Hr. unfold analyzerBOP. respects_auto. Qed.

Lemma respects_analyzerComparisonBOP (Node : ast) :
  (forall c, ast_l Node = Some c -> good c) ->
  (forall c, ast_r Node = Some c -> good c) ->
  respects R (analyzerComparisonBOP recV Node).
Proof. intros Hl Hr. unfold analyzerComparisonBOP. respects_auto. Qed.

Lemma respects_analyzerLogicalBOP (Node : ast) :
  (forall c, ast_l Node = Some c -> good c) ->
  (forall c, ast_r Node = Some c -> good c) ->
  respects R (analyzerLogicalBOP recV Node).
Proof. intros Hl Hr. unfold analyzerLogicalBOP. respects_auto. Qed.

Lemma respects_analyzerMemberBOP (Node : ast) :
  (forall c, ast_l Node = Some c -> good c) ->
  respects R (analyzerMemberBOP recV Node).
Proof. intros Hl. unfold analyzerMemberBOP. respects_auto. Qed.

Lemma respects_analyzerCommaBOP (Node : ast) :
  (forall c, ast_l Node = Some c -> good c) ->
  (forall c, ast_r Node = Some c -> good c) ->
  respects R (analyzerCommaBOP recV Node).
Proof. intros Hl Hr. unfold analyzerCommaBOP. respects_auto. Qed.

Lemma respects_analyzerUOP (Node : ast) :
  (forall c, ast_r Node = Some c -> good c) ->
  respects R (analyzerUOP recV Node).
Proof. intros Hr. unfold analyzerUOP. respects_auto. Qed.

Lemma respects_analyzerTernary (Node : ast) :
  (forall c, ast_l Node = Some c -> good c) ->
  (forall c, ast_r Node = Some c -> good c) ->
  Forall (fun c => good c) (ast_childs Node) ->
  respects R (analyzerTernary recV Node).
Proof. intros Hl Hr Hcs. unfold analyzerTernary. respects_auto. Qed.

Lemma respects_analyzerIndex (Node : ast) :
  (forall c, ast_l Node = Some c -> good c) ->
  (forall c, ast_r Node = Some c -> good c) ->
  respects R (analyzerIndex recV Node).
Proof. intros Hl Hr. unfold analyzerIndex. respects_auto. Qed.

Lemma respects_analyzerCall (Node : ast) :
  (forall c, ast_l Node = Some c -> good c) ->
  Forall (fun c => good c) (ast_childs Node) ->
  respects R (analyzerCall recV Node).
Proof.
  intros Hl Hcs. unfold analyzerCall.
  respects_auto; apply respects_callArgs; assumption.
Qed.

Lemma respects_analyzerCast (Node : ast) :
  (forall c, ast_r Node = Some c -> good c) ->
  respects R (analyzerCast analyzerType recV Node).
Proof. intros Hr. unfold analyzerCast. respects_auto. Qed.

Lemma respects_analyzerSizeof (Node : ast) :
  (forall c, ast_r Node = Some c -> good c) ->
  respects R (analyzerSizeof analyzerType recV Node).
Proof. intros Hr. unfold analyzerSizeof. respects_auto. Qed.

Lemma respects_analyzerLiteral (Node : ast) : respects R (analyzerLiteral Node).
Proof. unfold analyzerLiteral. respects_auto. Qed.

Lemma respects_analyzerCompoundLiteral (Node : ast) :
  Forall (fun c => good c) (ast_childs Node) ->
  respects R (analyzerCompoundLiteral analyzerType recV recI Node).
Proof.
  intros Hcs. unfold analyzerCompoundLiteral, visitType.
  apply respects_bind; [respects_auto|]. intros [l' DT].
  apply respects_bind; [apply respects_analyzerInitBody; exact Hcs|].
  intros [N v]. respects_auto.
Qed.

Lemma respects_analyzerValueBody (Node : ast) :
  (forall c, ast_l Node = Some c -> good c) ->
  (forall c, ast_r Node = Some c -> good c) ->
  Forall (fun c => good c) (ast_childs Node) ->
  respects R (analyzerValueBody analyzerType recV recI Node).
Proof.
  intros Hl Hr Hcs. unfold analyzerValueBody.
  repeat match goal with
         | |- respects _ (if ?b then _ else _) => destruct b
         end;
    auto using respects_analyzerBOP, respects_analyzerComparisonBOP,
      respects_analyzerLogicalBOP, respects_analyzerMemberBOP,
      respects_analyzerCommaBOP, respects_analyzerUOP, respects_analyzerTernary,
      respects_analyzerIndex, respects_analyzerCall, respects_analyzerCast,
      respects_analyzerSizeof, respects_analyzerLiteral,
      respects_analyzerCompoundLiteral;
    respects_auto.
Qed.
End Visitors.
End Frame.

(** * The invariants of an analysis *)

Section FrameTheorem.
Context `{typeMasks} `{allocation}.
Variable analyzerType : ast -> M (ast * type).
Variable R : analyzerCtx -> analyzerCtx -> Prop.
Hypothesis R_refl : forall ctx, R ctx ctx.
Hypothesis R_trans : forall a b c, R a b -> R b c -> R a c.
Hypothesis R_emit : forall ctx e, R ctx (addLog ctx [e]).
Hypothesis R_setSymDt :
  forall ctx S DT ctx', setSymDt S DT ctx = Some (tt, ctx') -> R ctx ctx'.
Hypothesis R_analyzerType : forall n, respects R (analyzerType n).

(** A relation between contexts that is reflexive and transitive, that
    holds over the report of an event and over the assignment of a
    symbol's type, and that the type analyzer keeps, is kept by the
    analysis of every tree. *)
Lemma analysis_respects (Node : ast) :
  respects R (analyzerValue analyzerType Node)
  /\ forall DT, respects R (analyzerInitOrCompoundLiteral analyzerType Node DT).
Proof.
  induction Node as [t lt o lit l r cs s d IHl IHr IHcs] using ast_ind_nested.
  split.
  - rewrite analyzerValue_unfold.
    apply respects_analyzerValueBody; assumption.
  - intros DT. rewrite analyzerInitOrCompoundLiteral_unfold.
    apply respects_analyzerInitBody; assumption.
Qed.
End FrameTheorem.

Lemma logGrows_refl (ctx : analyzerCtx) : logGrows ctx ctx.
Proof. exists []. rewrite app_nil_r. reflexivity. Qed.

Lemma logGrows_trans (a b c : analyzerCtx) :
  logGrows a b -> logGrows b c -> logGrows a c.
Proof.
  intros [m1 E1] [m2 E2]. exists (m1 ++ m2).
  rewrite E2, E1, app_assoc. reflexivity.
Qed.

Lemma logGrows_setSymDt (ctx : analyzerCtx) (S : symref) (DT : type) (ctx' : analyzerCtx) :
  setSymDt S DT ctx = Some (tt, ctx') -> logGrows ctx ctx'.
Proof.
  unfold setSymDt. destruct (ctx_syms ctx !! S) as [[]|]; intros [= <-].
  exists []. simpl. rewrite app_nil_r. reflexivity.
Qed.

(** The log only grows. When the type analyzer only adds to the log, so
    does the analysis of a value and of an initializer: the events
    reported before are still there, in their order, and the error
    count never decreases. *)
Theorem analysis_log_grows `{typeMasks} `{allocation} (analyzerType : ast -> M (ast * type))
        (Node : ast) :
  (forall n, respects logGrows (analyzerType n)) ->
  respects logGrows (analyzerValue analyzerType Node)
  /\ forall DT,
       respects logGrows (analyzerInitOrCompoundLiteral analyzerType Node DT).
Proof.
  intros HaT.
  apply (analysis_respects analyzerType logGrows logGrows_refl logGrows_trans).
  - intros ctx e. exists [e]. reflexivity.
  - exact logGrows_setSymDt.
  - exact HaT.
Qed.

Lemma sameButDt_refl (a : sym) : sameButDt a a.
Proof. repeat split. Qed.

Lemma sameButDt_trans (a b c : sym) : sameButDt a b -> sameButDt b c -> sameButDt a c.
Proof.
  intros (A1 & A2 & A3 & A4 & A5) (B1 & B2 & B3 & B4 & B5).
  repeat split; congruence.
Qed.

Lemma symbolsKept_refl (ctx : analyzerCtx) : symbolsKept ctx ctx.
Proof.
  split; [reflexivity|]. intros S.
  destruct (ctx_syms ctx !! S); [apply sameButDt_refl | exact I].
Qed.

Lemma symbolsKept_trans (a b c : analyzerCtx) :
  symbolsKept a b -> symbolsKept b c -> symbolsKept a c.
Proof.
  intros [T1 K1] [T2 K2]. split; [congruence|]. intros S.
  specialize (K1 S). specialize (K2 S).
  destruct (ctx_syms a !! S), (ctx_syms b !! S), (ctx_syms c !! S);
    try contradiction; try exact I.
  eapply sameButDt_trans; eassumption.
Qed.

Lemma symbolsKept_setSymDt (ctx : analyzerCtx) (S : symref) (DT : type) (ctx' : analyzerCtx) :
  setSymDt S DT ctx = Some (tt, ctx') -> symbolsKept ctx ctx'.
Proof.
  unfold setSymDt. destruct (ctx_syms ctx !! S) as [[t i m sz cs d]|] eqn:E;
    intros [= <-].
  split; [reflexivity|]. intros S'. simpl.
  destruct (decide (S = S')) as [<-|Hne].
  - rewrite E, lookup_insert_eq. repeat split.
  - rewrite lookup_insert_ne by exact Hne.
    destruct (ctx_syms ctx !! S'); [apply sameButDt_refl | exact I].
Qed.

(** The analysis writes nothing of a symbol but its type. When the type
    analyzer keeps the symbols, so does the analysis: the heap has the
    same symbols after it as before, each with its tag, name, mask, size
    and children, and the table of builtin types is the same. *)
Theorem analysis_keeps_symbols `{typeMasks} `{allocation} (analyzerType : ast -> M (ast * type))
        (Node : ast) :
  (forall n, respects symbolsKept (analyzerType n)) ->
  respects symbolsKept (analyzerValue analyzerType Node)
  /\ forall DT,
       respects symbolsKept (analyzerInitOrCompoundLiteral analyzerType Node DT).
Proof.
  intros HaT.
  apply (analysis_respects analyzerType symbolsKept symbolsKept_refl
           symbolsKept_trans).
  - intros ctx e. split; [reflexivity|]. intros S. simpl.
    destruct (ctx_syms ctx !! S); [apply sameButDt_refl | exact I].
  - exact symbolsKept_setSymDt.
  - exact HaT.
Qed.

(** * What an analysis ends in *)

Lemma ensures_bind {A B} (Q : B -> analyzerCtx -> Prop) (m : M A) (f : A -> M B) :
  (forall a, ensures Q (f a)) -> ensures Q (m ≫= f).
Proof.
  intros Hf ctx b ctx'. unfold mbind, M_bind.
  destruct (m ctx) as [[a c]|]; [|discriminate]. apply Hf.
Qed.

Lemma ensures_deref_bind {A B} (Q : B -> analyzerCtx -> Prop)
      (p : option A) (f : A -> M B) :
  (forall a, p = Some a -> ensures Q (f a)) -> ensures Q (deref p ≫= f).
Proof.
  intros Hf ctx b ctx'. unfold mbind, M_bind.
  destruct p as [a|]; simpl; [|discriminate]. apply Hf. reflexivity.
Qed.

Lemma ensures_ret {A} (Q : A -> analyzerCtx -> Prop) (a : A) :
  (forall ctx, Q a ctx) -> ensures Q (mret a).
Proof. intros HQ ctx a' ctx' [= <- <-]. apply HQ. Qed.

Lemma ensures_crash {A} (Q : A -> analyzerCtx -> Prop) : ensures Q crash.
Proof. intros ctx a ctx' [=]. Qed.

Ltac ensures_step :=
  lazymatch goal with
  | |- ensures _ (mret _) => apply ensures_ret; intros; simpl
  | |- ensures _ crash => apply ensures_crash
  | |- ensures _ (invalidResult _) => unfold invalidResult
  | |- ensures _ (deref _ ≫= _) => apply ensures_deref_bind; intros
  | |- ensures _ (_ ≫= _) => apply ensures_bind; intros
  | |- ensures _ (if ?b then _ else _) => destruct b
  | |- ensures _ (match ?x with _ => _ end) => destruct x
  end.

Ltac ensures_auto :=
  repeat ensures_step; try reflexivity; try assumption.

Section Outcome.
Context `{typeMasks} `{allocation}.
Variable analyzerType : ast -> M (ast * type).

Lemma analyzerInitBody_typed recV recI (Node : ast) (DT : type) :
  ensures typed (analyzerInitBody recV recI Node DT).
Proof. unfold analyzerInitBody, typed. ensures_auto. Qed.

Lemma analyzerValueBody_typed recV recI (Node : ast) :
  ensures typed (analyzerValueBody analyzerType recV recI Node).
Proof.
  unfold analyzerValueBody, analyzerBOP, analyzerComparisonBOP,
    analyzerLogicalBOP, analyzerMemberBOP, analyzerCommaBOP, analyzerUOP,
    analyzerTernary, analyzerIndex, analyzerCall, analyzerCast, analyzerSizeof,
    analyzerLiteral, analyzerCompoundLiteral, typed.
  ensures_auto.
Qed.

(** Every analysis that returns has typed its node: the derived type
    that the node carries afterwards is the type of the result, for a
    value and for an initializer. *)
Theorem analysis_types_node (Node Node' : ast) (v : valueResult)
        (ctx ctx' : analyzerCtx) :
  (analyzerValue analyzerType Node ctx = Some (Node', v, ctx') ->
   ast_dt Node' = Some (vr_dt v))
  /\ (forall DT,
        analyzerInitOrCompoundLiteral analyzerType Node DT ctx = Some (Node', v, ctx') ->
        ast_dt Node' = Some (vr_dt v)).
Proof.
  split.
  - rewrite analyzerValue_unfold. intros Hrun.
    exact (analyzerValueBody_typed _ _ Node ctx (Node', v) ctx' Hrun).
  - intros DT. rewrite analyzerInitOrCompoundLiteral_unfold. intros Hrun.
    exact (analyzerInitBody_typed _ _ Node DT ctx (Node', v) ctx' Hrun).
Qed.
End Outcome.

Lemma ensures_types_bind {B} (Q : B -> analyzerCtx -> Prop)
      (i : builtinTypeIndex) (f : symref -> M B) :
  (forall ctx b ctx', f (ctx_types ctx i) ctx = Some (b, ctx') -> Q b ctx') ->
  ensures Q (types i ≫= f).
Proof.
  intros Hf ctx b ctx'. unfold mbind, M_bind, types. apply Hf.
Qed.

Ltac dispatch :=
  repeat first [ rewrite bool_decide_eq_true_2 by reflexivity
               | rewrite bool_decide_eq_false_2 by discriminate ];
  cbv iota.

Ltac ensures_to_types :=
  repeat lazymatch goal with
         | |- ensures _ (types _ ≫= _) => fail
         | |- ensures _ (_ ≫= _) => apply ensures_bind; intros
         | |- ensures _ (let (_, _) := ?p in _) => destruct p
         end;
  apply ensures_types_bind; intros ? ? ? [= <- <-]; reflexivity.

(** * Member access and initializer arity *)

Section MemberAccess.
Context `{typeMasks} `{allocation}.
Variable analyzerType : ast -> M (ast * type).

(** A binary operator of the member class is analyzed by
    [analyzerMemberBOP]. *)
Lemma member_dispatch (Node : ast) :
  ast_tag Node = astBOP ->
  isMemberBOP (ast_o Node) = true ->
  analyzerValue analyzerType Node
  = analyzerMemberBOP (analyzerValue analyzerType) Node.
Proof.
  intros Htag Ho.
  assert (Hclass : (isNumericBOP (ast_o Node) || isAssignmentBOP (ast_o Node)) = false
                   /\ (isOrdinalBOP (ast_o Node) || isEqualityBOP (ast_o Node)) = false
                   /\ isLogicalBOP (ast_o Node) = false).
  { unfold isMemberBOP, streq in Ho. apply orb_true_iff in Ho.
    destruct Ho as [Ho|Ho]; apply String.eqb_eq in Ho; rewrite Ho;
      repeat split; reflexivity. }
  destruct Hclass as (Hn & Hc & Hg).
  rewrite analyzerValue_unfold. unfold analyzerValueBody.
  rewrite Htag. dispatch. rewrite Hn, Hc, Hg, Ho. reflexivity.
Qed.

(** A direct record, and a pointer to one, pass the test that asks for
    either. *)
Lemma record_shape (syms : symtab) (s : symref) (sy : sym) (deref : bool) :
  syms !! s = Some sy ->
  sym_tag sy = symStruct ->
  isRecordOrPtrToRecord syms (if deref then Basic s else Ptr (Basic s)) = Some true.
Proof.
  intros Hs Htag.
  destruct deref; unfold isRecordOrPtrToRecord, typeIsRecord, basicAnd, basicField;
    simpl; rewrite Hs; simpl; rewrite Htag; reflexivity.
Qed.

(** C4, as the code has it. When the operand of a member access is
    neither a record nor a pointer to a record, the diagnostic that asks
    for a structure or union (a pointer to one, for [->]) is the one
    event reported after the operand is analyzed, and the type of the
    node is Invalid. When the operand is a record at the wrong level of
    indirection, a direct record under [->] or a pointer to a record
    under [.], the one event that the shape raises asks for a pointer,
    or for a direct structure or union, and the field is looked up all
    the same: the node gets the field as its symbol and a copy of the
    field's type as its type when the record has the field, and the
    member diagnostic and the Invalid type when it has not. *)
Theorem member_access_shape (Node l l' : ast) (L : valueResult)
        (ctx ctx1 : analyzerCtx) :
  ast_tag Node = astBOP ->
  isMemberBOP (ast_o Node) = true ->
  ast_l Node = Some l ->
  analyzerValue analyzerType l ctx = Some (l', L, ctx1) ->
  (isRecordOrPtrToRecord (ctx_syms ctx1) (vr_dt L) = Some false ->
   analyzerValue analyzerType Node ctx
   = Some (setDt (setL Node l') Invalid,
           ValueResult Invalid (if isDerefBOP (ast_o Node) then true else lvalue L),
           addLog ctx1 [TypeExpected l' (ast_o Node)
                          (if isDerefBOP (ast_o Node)
                           then "structure or union pointer"
                           else "structure or union type")]))
  /\ (forall (s : symref) (sy : sym) (r : ast),
        vr_dt L = (if isDerefBOP (ast_o Node) then Basic s else Ptr (Basic s)) ->
        ctx_syms ctx1 !! s = Some sy ->
        sym_tag sy = symStruct ->
        ast_r Node = Some r ->
        let wrong := TypeExpected l' (ast_o Node)
                       (if isDerefBOP (ast_o Node) then "pointer"
                        else "direct structure or union") in
        (forall (f : symref) (fsy : sym) (DT : type),
           symChildIn (ctx_syms ctx1) (sym_children sy) (ast_literal r) = Some (Some f) ->
           ctx_syms ctx1 !! f = Some fsy ->
           sym_dt fsy = Some DT ->
           analyzerValue analyzerType Node ctx
           = Some (setDt (setSymbol (setL Node l') (Some f)) (typeDeepDuplicate DT),
                   ValueResult (typeDeepDuplicate DT)
                     (if isDerefBOP (ast_o Node) then true else lvalue L),
                   addLog ctx1 [wrong]))
        /\ (symChildIn (ctx_syms ctx1) (sym_children sy) (ast_literal r) = Some None ->
            analyzerValue analyzerType Node ctx
            = Some (setDt (setSymbol (setL Node l') None) Invalid,
                    ValueResult Invalid
                      (if isDerefBOP (ast_o Node) then true else lvalue L),
                    addLog ctx1 [wrong; Member (ast_o Node) r (vr_dt L)]))).
Proof.
  intros Htag Ho Hl Hoperand.
  rewrite (member_dispatch Node Htag Ho).
  split.
  - intros Hshape.
    unfold analyzerMemberBOP, mbind, M_bind, visit. rewrite Hl, Hoperand.
    unfold query. cbn [ast_o setL]. rewrite Hshape. cbn.
    destruct (isDerefBOP (ast_o Node)); reflexivity.
  - intros s sy r HL Hs Hstruct Hr wrong.
    pose proof (record_shape (ctx_syms ctx1) s sy (isDerefBOP (ast_o Node)) Hs Hstruct)
      as Hshape.
    rewrite <- HL in Hshape.
    assert (Hptr : typeIsPtr (vr_dt L) = negb (isDerefBOP (ast_o Node))).
    { rewrite HL. destruct (isDerefBOP (ast_o Node)); reflexivity. }
    assert (Hrec : forall c, ctx_syms c = ctx_syms ctx1 ->
                             typeGetRecordSym (vr_dt L) c = Some (Some s, c)).
    { intros c E. unfold typeGetRecordSym, query. rewrite HL, E.
      destruct (isDerefBOP (ast_o Node)); rewrite Hs; cbn; rewrite Hstruct;
        reflexivity. }
    split.
    + intros f fsy DT Hchild Hf Hdt.
      unfold analyzerMemberBOP, mbind, M_bind, visit. rewrite Hl, Hoperand.
      unfold query at 1. cbn [ast_o setL ast_l ast_r]. rewrite Hshape. cbn [negb].
      rewrite Hptr.
      destruct (isDerefBOP (ast_o Node)) eqn:Ed; cbn [negb when];
        unfold errorTypeExpected, deref, emit, mbind, M_bind, mret, M_ret; cbn;
        rewrite Hrec by reflexivity; cbn;
        rewrite Hr; unfold symChild, symField, query; cbn; rewrite Hs; cbn;
        rewrite Hchild; cbn; rewrite Hf; cbn; rewrite Hdt; cbn; rewrite ?Ed; reflexivity.
    + intros Hchild.
      unfold analyzerMemberBOP, mbind, M_bind, visit. rewrite Hl, Hoperand.
      unfold query at 1. cbn [ast_o setL ast_l ast_r]. rewrite Hshape. cbn [negb].
      rewrite Hptr.
      destruct (isDerefBOP (ast_o Node)) eqn:Ed; cbn [negb when];
        unfold errorTypeExpected, deref, emit, mbind, M_bind, mret, M_ret; cbn;
        rewrite Hrec by reflexivity; cbn;
        rewrite Hr; unfold symChild, symField, query; cbn; rewrite Hs; cbn;
        rewrite Hchild; cbn; unfold errorMember, emit, deref, mbind, M_bind; cbn;
        rewrite ?Ed; unfold addLog; cbn; rewrite <- ?app_assoc; reflexivity.
Qed.
End MemberAccess.

Section InitializerArity.
Context `{typeMasks} `{allocation}.
Variable analyzerType : ast -> M (ast * type).

(** The loop of the array case visits every element: each element of
    the result is the analysis of the element at its place, and carries
    its derived type. *)
Lemma initElements_visits_typed (b : type) (cs cs' : list ast) (ctx ctx' : analyzerCtx) :
  initElements (analyzerValue analyzerType)
    (analyzerInitOrCompoundLiteral analyzerType) (Some b) cs ctx = Some (cs', ctx') ->
  Forall2 (fun c c' => exists c1 c2 w,
             (if isInit c
              then analyzerInitOrCompoundLiteral analyzerType c b
              else analyzerValue analyzerType c) c1 = Some (c', w, c2)
             /\ ast_dt c' = Some (vr_dt w))
          cs cs'.
Proof.
  revert cs' ctx ctx'.
  induction cs as [|c cs IH]; intros cs' ctx ctx'; simpl.
  - intros [= <- _]. constructor.
  - unfold mbind, M_bind. simpl.
    destruct ((if isInit c
               then analyzerInitOrCompoundLiteral analyzerType c b
               else analyzerValue analyzerType c) ctx)
      as [[[c' w] c2]|] eqn:E.
    + assert (Ht : ast_dt c' = Some (vr_dt w)).
      { destruct (isInit c).
        - rewrite analyzerInitOrCompoundLiteral_unfold in E.
          exact (analyzerInitBody_typed _ _ c b ctx (c', w) c2 E).
        - rewrite analyzerValue_unfold in E.
          exact (analyzerValueBody_typed analyzerType _ _ c ctx (c', w) c2 E). }
      destruct (isInit c) eqn:Ei; rewrite E;
        (destruct (query _ c2) as [[ok c3]|]; [|discriminate]);
        (destruct (when _ _ c3) as [[[] c4]|]; [|discriminate]);
        (destruct (initElements _ _ _ cs c4) as [[rest c5]|] eqn:Er; [|discriminate]);
        intros [= <- _]; (constructor; [|exact (IH _ _ _ Er)]);
        exists ctx, c2, w; (split; [rewrite Ei; exact E | exact Ht]).
    + destruct (isInit c); rewrite E; discriminate.
Qed.

(** C10. When the number of elements of a struct initializer differs
    from the number of fields, the arity diagnostic is the one event
    reported, and the node comes back with its elements as they were:
    none is visited, none gets a derived type. An array initializer with
    too many elements reports the arity diagnostic first and then runs
    its loop from there: when it returns, every element of the node that
    comes back is the analysis of the element at its place and carries
    its derived type, and the log continues the log that ends in the
    arity diagnostic, provided the type analyzer only adds to the log. *)
Theorem init_arity (Node : ast) (ctx : analyzerCtx) (s : symref) (sy : sym) :
  ctx_syms ctx !! s = Some sy ->
  sym_tag sy = symStruct ->
  Z.of_nat (length (sym_children sy)) <> children Node ->
  analyzerInitOrCompoundLiteral analyzerType Node (Basic s) ctx
  = Some (setDt Node (Basic s), ValueResult (Basic s) false,
          addLog ctx [Degree (setDt Node (Basic s)) "fields"
                        (Z.of_nat (length (sym_children sy))) (children Node)
                        (sym_ident sy)])
  /\ ast_childs (setDt Node (Basic s)) = ast_childs Node
  /\ forall (b : type) (n : Z),
       n <> -1 -> n < children Node ->
       let DT := Array (typeDeepDuplicate b) n in
       let reported :=
         addLog ctx [Degree (setDt Node DT) "elements" n (children Node) "array"] in
       analyzerInitOrCompoundLiteral analyzerType Node (Array b n) ctx
       = (cs' ← initElements (analyzerValue analyzerType)
                  (analyzerInitOrCompoundLiteral analyzerType)
                  (Some b) (ast_childs Node);
          mret (setChilds (setDt Node DT) cs', ValueResult DT false)) reported
       /\ forall (Node' : ast) (v : valueResult) (ctx' : analyzerCtx),
            analyzerInitOrCompoundLiteral analyzerType Node (Array b n) ctx
            = Some (Node', v, ctx') ->
            Forall2 (fun c c' => exists c1 c2 w,
                       (if isInit c
                        then analyzerInitOrCompoundLiteral analyzerType c b
                        else analyzerValue analyzerType c) c1 = Some (c', w, c2)
                       /\ ast_dt c' = Some (vr_dt w))
                    (ast_childs Node) (ast_childs Node')
            /\ ((forall t, respects logGrows (analyzerType t)) ->
                exists more, ctx_log ctx' = ctx_log reported ++ more).
Proof.
  intros Hs Htag Hcount. split; [|split; [reflexivity|]].
  - rewrite analyzerInitOrCompoundLiteral_unfold.
    unfold analyzerInitBody, mbind, M_bind, query, symField, query,
      isStructType, basicField.
    simpl. rewrite Hs. simpl. rewrite Htag. simpl. rewrite Hs. simpl.
    rewrite !children_setDt.
    destruct (Z.eqb_spec (Z.of_nat (length (sym_children sy))) (children Node))
      as [E|_]; [contradiction|].
    simpl. rewrite Hs. reflexivity.
  - intros b n Hn Hlt DT reported.
    assert (Hrun : analyzerInitOrCompoundLiteral analyzerType Node (Array b n) ctx
                   = (cs' ← initElements (analyzerValue analyzerType)
                              (analyzerInitOrCompoundLiteral analyzerType)
                              (Some b) (ast_childs Node);
                      mret (setChilds (setDt Node DT) cs', ValueResult DT false))
                       reported).
    { rewrite analyzerInitOrCompoundLiteral_unfold.
      unfold analyzerInitBody, mbind, M_bind, query, isStructType.
      simpl. rewrite !children_setDt.
      destruct (Z.eqb_spec n (-1)) as [E|_]; [contradiction|].
      destruct (Z.ltb_spec n (children Node)) as [_|E]; [|lia].
      simpl. unfold addLog.
      destruct (initElements _ _ _ _ _) as [[cs' c']|]; reflexivity. }
    split; [exact Hrun|].
    intros Node' v ctx'. rewrite Hrun. unfold mbind, M_bind.
    destruct (initElements _ _ _ _ reported) as [[cs' c']|] eqn:Eloop; [|discriminate].
    intros [= <- _ <-]. split.
    + exact (initElements_visits_typed b _ _ _ _ Eloop).
    + intros HaT.
      assert (Hloop : respects logGrows
                        (initElements (analyzerValue analyzerType)
                           (analyzerInitOrCompoundLiteral analyzerType)
                           (Some b) (ast_childs Node))).
      { apply (respects_initElements logGrows logGrows_refl logGrows_trans
                 (fun c e => ex_intro _ [e] eq_refl)).
        apply Forall_forall. intros c _.
        exact (analysis_respects analyzerType logGrows logGrows_refl logGrows_trans
                 (fun c e => ex_intro _ [e] eq_refl) logGrows_setSymDt HaT c). }
      exact (Hloop _ _ _ Eloop).
Qed.
End InitializerArity.

Section ValueCategory.
Context `{typeMasks} `{allocation}.
Variable analyzerType : ast -> M (ast * type).

(** The value category that the kind of a node fixes. The result of a
    call, of a sizeof and of a numeric, assignment, comparison or
    logical operator is never an l-value, nor is the result of an
    initializer, whatever the operands are. *)
Theorem rvalue_nodes (Node Node' : ast) (v : valueResult) (ctx ctx' : analyzerCtx) :
  (rvalueNode Node = true ->
   analyzerValue analyzerType Node ctx = Some (Node', v, ctx') ->
   lvalue v = false)
  /\ (forall DT,
        analyzerInitOrCompoundLiteral analyzerType Node DT ctx = Some (Node', v, ctx') ->
        lvalue v = false).
Proof.
  split.
  - unfold rvalueNode. intros Hkind. rewrite analyzerValue_unfold.
    assert (Hens : ensures (fun res _ => lvalue (snd res) = false)
                     (analyzerValueBody analyzerType (analyzerValue analyzerType)
                        (analyzerInitOrCompoundLiteral analyzerType) Node)).
    { unfold analyzerValueBody.
      apply orb_true_iff in Hkind. destruct Hkind as [Hkind|Hkind];
        [apply orb_true_iff in Hkind; destruct Hkind as [Hkind|Hkind]|].
      - apply bool_decide_eq_true in Hkind. rewrite Hkind. dispatch.
        unfold analyzerCall. ensures_auto.
      - apply bool_decide_eq_true in Hkind. rewrite Hkind. dispatch.
        unfold analyzerSizeof. ensures_auto.
      - apply andb_true_iff in Hkind. destruct Hkind as [Htag Hkind].
        apply bool_decide_eq_true in Htag. rewrite Htag. dispatch.
        destruct (isNumericBOP (ast_o Node) || isAssignmentBOP (ast_o Node));
          [unfold analyzerBOP; ensures_auto|].
        destruct (isOrdinalBOP (ast_o Node) || isEqualityBOP (ast_o Node));
          [unfold analyzerComparisonBOP; ensures_auto|].
        destruct (isLogicalBOP (ast_o Node)); [|discriminate].
        unfold analyzerLogicalBOP; ensures_auto. }
    intros Hrun. exact (Hens ctx (Node', v) ctx' Hrun).
  - intros DT. rewrite analyzerInitOrCompoundLiteral_unfold. intros Hrun.
    assert (Hens : ensures (fun res _ => lvalue (snd res) = false)
                     (analyzerInitBody (analyzerValue analyzerType)
                        (analyzerInitOrCompoundLiteral analyzerType) Node DT)).
    { unfold analyzerInitBody. ensures_auto. }
    exact (Hens ctx (Node', v) ctx' Hrun).
Qed.

(** A comparison and a logical operator have the builtin type bool,
    whatever the operands are and whatever was reported, and a sizeof
    has the builtin type int. *)
Theorem truth_nodes_are_bool (Node Node' : ast) (v : valueResult)
        (ctx ctx' : analyzerCtx) :
  (truthNode Node = true ->
   analyzerValue analyzerType Node ctx = Some (Node', v, ctx') ->
   vr_dt v = Basic (ctx_types ctx' builtinBool))
  /\ (ast_tag Node = astSizeof ->
      analyzerValue analyzerType Node ctx = Some (Node', v, ctx') ->
      vr_dt v = Basic (ctx_types ctx' builtinInt)).
Proof.
  split.
  - unfold truthNode. intros Hkind. rewrite analyzerValue_unfold.
    assert (Hens : ensures (fun res c => vr_dt (snd res) = Basic (ctx_types c builtinBool))
                     (analyzerValueBody analyzerType (analyzerValue analyzerType)
                        (analyzerInitOrCompoundLiteral analyzerType) Node)).
    { unfold analyzerValueBody.
      apply andb_true_iff in Hkind. destruct Hkind as [Hkind Hclass].
      apply andb_true_iff in Hkind. destruct Hkind as [Htag Hkind].
      apply bool_decide_eq_true in Htag. rewrite Htag. dispatch.
      destruct (isNumericBOP (ast_o Node) || isAssignmentBOP (ast_o Node));
        [discriminate|].
      destruct (isOrdinalBOP (ast_o Node) || isEqualityBOP (ast_o Node)).
      - unfold analyzerComparisonBOP. ensures_to_types.
      - destruct (isLogicalBOP (ast_o Node)); [|discriminate].
        unfold analyzerLogicalBOP. ensures_to_types. }
    intros Hrun. exact (Hens ctx (Node', v) ctx' Hrun).
  - intros Htag. rewrite analyzerValue_unfold. unfold analyzerValueBody.
    rewrite Htag. dispatch.
    assert (Hens : ensures (fun res c => vr_dt (snd res) = Basic (ctx_types c builtinInt))
                     (analyzerSizeof analyzerType (analyzerValue analyzerType) Node)).
    { unfold analyzerSizeof. ensures_to_types. }
    intros Hrun. exact (Hens ctx (Node', v) ctx' Hrun).
Qed.
End ValueCategory.

(** * Error behaviour of the visitors *)

Section VisitorErrors.
Context `{typeMasks} `{allocation}.
Variable analyzerType : ast -> M (ast * type).

(** A call whose callee is not callable reports that a function is
    expected, and a call whose callee has the Invalid type reports
    nothing; in both cases the call has the Invalid type and no argument
    is visited. *)
Theorem call_of_non_function (Node l l' : ast) (L : valueResult)
        (ctx ctx1 : analyzerCtx) :
  ast_tag Node = astCall ->
  ast_l Node = Some l ->
  analyzerValue analyzerType l ctx = Some (l', L, ctx1) ->
  typeIsCallable (vr_dt L) = false \/ typeIsInvalid (vr_dt L) = true ->
  analyzerValue analyzerType Node ctx
  = Some (setDt (setL Node l') Invalid, ValueResult Invalid false,
          if typeIsCallable (vr_dt L) then ctx1
          else addLog ctx1 [TypeExpected l' "()" "function"])
  /\ ast_childs (setDt (setL Node l') Invalid) = ast_childs Node.
Proof.
  intros Htag Hl Hcallee Hcase. split; [|reflexivity].
  rewrite analyzerValue_unfold. unfold analyzerValueBody.
  rewrite Htag. dispatch.
  unfold analyzerCall, mbind, M_bind. rewrite Hl. simpl. rewrite Hcallee.
  destruct (typeIsCallable (vr_dt L)) eqn:Ec; simpl.
  - destruct Hcase as [[=]|Hinv]. rewrite Hinv. reflexivity.
  - reflexivity.
Qed.

(** The address of an operand that is no l-value is reported, and still
    has the type pointer to the operand's type. *)
Theorem address_of_rvalue (Node r r' : ast) (R : valueResult)
        (ctx ctx1 : analyzerCtx) :
  ast_tag Node = astUOP ->
  ast_o Node = "&"%string ->
  ast_r Node = Some r ->
  analyzerValue analyzerType r ctx = Some (r', R, ctx1) ->
  lvalue R = false ->
  analyzerValue analyzerType Node ctx
  = Some (setDt (setR Node r') (Ptr (typeDeepDuplicate (vr_dt R))),
          ValueResult (Ptr (typeDeepDuplicate (vr_dt R))) false,
          addLog ctx1 [Lvalue r' "&"]).
Proof.
  intros Htag Ho Hr Hoperand Hlv.
  rewrite analyzerValue_unfold. unfold analyzerValueBody.
  rewrite Htag. dispatch.
  unfold analyzerUOP, mbind, M_bind. rewrite Hr. simpl. rewrite Hoperand, Ho.
  simpl. rewrite Hlv. reflexivity.
Qed.

(** The dereference of an operand that is no pointer is reported and has
    the Invalid type, and is an l-value all the same: the result of [*]
    is an l-value whatever its operand. *)
Theorem dereference_of_non_pointer (Node r r' : ast) (R : valueResult)
        (ctx ctx1 : analyzerCtx) :
  ast_tag Node = astUOP ->
  ast_o Node = "*"%string ->
  ast_r Node = Some r ->
  analyzerValue analyzerType r ctx = Some (r', R, ctx1) ->
  typeIsPtr (vr_dt R) = false ->
  analyzerValue analyzerType Node ctx
  = Some (setDt (setR Node r') Invalid, ValueResult Invalid true,
          addLog ctx1 [TypeExpected r' "*" "pointer"]).
Proof.
  intros Htag Ho Hr Hoperand Hptr.
  rewrite analyzerValue_unfold. unfold analyzerValueBody.
  rewrite Htag. dispatch.
  unfold analyzerUOP, mbind, M_bind. rewrite Hr. simpl. rewrite Hoperand, Ho.
  simpl. rewrite Hptr. reflexivity.
Qed.

(** An identifier whose symbol is no enumeration constant, variable or
    parameter is reported as an illegal value and has the Invalid type;
    it is an l-value all the same, as every identifier. *)
Theorem identifier_of_illegal_symbol (Node : ast) (s : symref) (sy : sym)
        (ctx : analyzerCtx) :
  ast_tag Node = astLiteral ->
  ast_litTag Node = literalIdent ->
  ast_symbol Node = Some s ->
  ctx_syms ctx !! s = Some sy ->
  sym_tag sy <> symEnumConstant ->
  sym_tag sy <> symId ->
  sym_tag sy <> symParam ->
  analyzerValue analyzerType Node ctx
  = Some (setDt Node Invalid, ValueResult Invalid true,
          addLog ctx [IllegalSymAsValue Node s]).
Proof.
  intros Htag Hlit Hsym Hs H1 H2 H3.
  rewrite analyzerValue_unfold. unfold analyzerValueBody.
  rewrite Htag, Hlit. dispatch.
  unfold analyzerLiteral, mbind, M_bind, symField, query.
  rewrite Hlit, Hsym. dispatch. simpl. rewrite Hs. simpl.
  rewrite !bool_decide_eq_false_2 by assumption. reflexivity.
Qed.

(** An initializer for the Invalid type is silent: nothing is reported
    and no element is visited. *)
Theorem init_of_Invalid (Node : ast) (ctx : analyzerCtx) :
  analyzerInitOrCompoundLiteral analyzerType Node Invalid ctx
  = Some (setDt Node Invalid, ValueResult Invalid false, ctx)
  /\ ast_childs (setDt Node Invalid) = ast_childs Node.
Proof.
  split; [|reflexivity].
  rewrite analyzerInitOrCompoundLiteral_unfold. reflexivity.
Qed.

(** An initializer for a scalar type that has no element, or more than
    one, reports the arity and visits no element. *)
Theorem init_scalar_arity (Node : ast) (DT : type) (ctx : analyzerCtx) :
  typeIsInvalid DT = false ->
  isStructType (ctx_syms ctx) DT = Some false ->
  typeIsArray DT = false ->
  children Node <> 1 ->
  analyzerInitOrCompoundLiteral analyzerType Node DT ctx
  = Some (setDt Node (typeDeepDuplicate DT),
          ValueResult (typeDeepDuplicate DT) false,
          addLog ctx [Degree (setDt Node (typeDeepDuplicate DT)) "element" 1
                        (children Node) "scalar"])
  /\ ast_childs (setDt Node (typeDeepDuplicate DT)) = ast_childs Node.
Proof.
  intros Hinv Hstruct Harray Hcount. split; [|reflexivity].
  rewrite analyzerInitOrCompoundLiteral_unfold.
  unfold analyzerInitBody, mbind, M_bind, query.
  rewrite Hinv, Hstruct, Harray. simpl. rewrite children_setDt.
  destruct (Z.eqb_spec (children Node) 1) as [E|_]; [contradiction|].
  reflexivity.
Qed.

(** An array initializer that fits reports no arity: when the size of
    the array is unspecified, or is at least the number of elements,
    the analysis is the loop over every element and nothing else. *)
Theorem init_array_fits (Node : ast) (b : type) (n : Z) (ctx : analyzerCtx) :
  n = -1 \/ children Node <= n ->
  analyzerInitOrCompoundLiteral analyzerType Node (Array b n) ctx
  = (cs' ← initElements (analyzerValue analyzerType)
             (analyzerInitOrCompoundLiteral analyzerType)
             (Some b) (ast_childs Node);
     mret (setChilds (setDt Node (Array (typeDeepDuplicate b) n)) cs',
           ValueResult (Array (typeDeepDuplicate b) n) false)) ctx.
Proof.
  intros Hfit.
  rewrite analyzerInitOrCompoundLiteral_unfold.
  unfold analyzerInitBody, mbind, M_bind, query, isStructType.
  simpl. rewrite !children_setDt.
  assert (Hno : negb (n =? -1) && (n <? children Node) = false).
  { destruct Hfit as [->|Hle]; [reflexivity|].
    apply andb_false_iff. right. apply Z.ltb_ge. exact Hle. }
  rewrite Hno. simpl.
  destruct (initElements _ _ _ _ _) as [[cs' c']|]; reflexivity.
Qed.
End VisitorErrors.

(** * The operator classes *)

Ltac split_operator o :=
  repeat match goal with
         | |- context [String.eqb o ?s] =>
             destruct (String.eqb_spec o s) as [->|?]; [vm_compute; try lia; auto|]
         end.

(** The five classes that [analyzerValue] dispatches a binary operator
    on exclude each other: a spelling is in one class at most, so the
    order of the tests does not matter. *)
Theorem operator_classes_disjoint (o : string) :
  (Nat.b2n (isNumericBOP o || isAssignmentBOP o)
   + Nat.b2n (isOrdinalBOP o || isEqualityBOP o)
   + Nat.b2n (isLogicalBOP o)
   + Nat.b2n (isMemberBOP o)
   + Nat.b2n (isCommaBOP o) <= 1)%nat.
Proof.
  unfold isNumericBOP, isAssignmentBOP, isOrdinalBOP, isEqualityBOP,
    isLogicalBOP, isMemberBOP, isCommaBOP, streq.
  split_operator o. simpl. lia.
Qed.

(** Every assignment operator but [=] is a numeric operator too: a
    compound assignment gets the check of the numeric operands and the
    checks of the assignment, and [=] gets the latter only. *)
Theorem compound_assignment_is_numeric (o : string) :
  isAssignmentBOP o = true ->
  isNumericBOP o = negb (streq o "=").
Proof.
  unfold isNumericBOP, isAssignmentBOP, streq.
  split_operator o. simpl. intros [=].
Qed.

Section CallArguments.
Context `{typeMasks} `{allocation}.
Variable analyzerType : ast -> M (ast * type).

Lemma callArgs_visits_all (fnSym : option symref) (cs : list ast) :
  forall ps n cs' ctx ctx',
    callArgs (analyzerValue analyzerType) fnSym cs ps n ctx = Some (cs', ctx') ->
    Forall2 (fun c c' => exists c1 c2 v,
               analyzerValue analyzerType c c1 = Some (c', v, c2)
               /\ ast_dt c' = Some (vr_dt v))
            cs cs'.
Proof.
  induction cs as [|c cs IH]; intros ps n cs' ctx ctx'; simpl.
  - intros [= <- _]. constructor.
  - assert (Hc : forall c' v c2,
               analyzerValue analyzerType c ctx = Some (c', v, c2) ->
               exists c1 c2 v,
                 analyzerValue analyzerType c c1 = Some (c', v, c2)
                 /\ ast_dt c' = Some (vr_dt v)).
    { intros c' v c2 E. exists ctx, c2, v. split; [exact E|].
      rewrite analyzerValue_unfold in E.
      exact (analyzerValueBody_typed analyzerType _ _ c ctx (c', v) c2 E). }
    unfold mbind, M_bind. destruct ps as [|p ps].
    + destruct (analyzerValue analyzerType c ctx) as [[[c' v] c2]|] eqn:E;
        [|discriminate].
      destruct (callArgs _ _ cs [] (n + 1) c2) as [[rest c3]|] eqn:Er;
        [|discriminate].
      intros [= <- _].
      constructor; [exact (Hc _ _ _ eq_refl) | exact (IH _ _ _ _ _ Er)].
    + destruct (analyzerValue analyzerType c ctx) as [[[c' v] c2]|] eqn:E;
        [|discriminate].
      destruct (query _ c2) as [[ok c3]|]; [|discriminate].
      destruct (when _ _ c3) as [[[] c4]|]; [|discriminate].
      destruct (callArgs _ _ cs ps (n + 1) c4) as [[rest c5]|] eqn:Er;
        [|discriminate].
      intros [= <- _].
      constructor; [exact (Hc _ _ _ eq_refl) | exact (IH _ _ _ _ _ Er)].
Qed.

(** When the number of arguments of a call is accepted (equal to the
    number of parameters, or at least that number for a variadic
    function), every argument is visited, those beyond the parameters
    included: each argument of the node that comes back is the analysis
    of the argument at its place, and carries its derived type. *)
Theorem call_visits_every_argument (Node l l' Node' : ast) (L v : valueResult)
        (ctx ctx1 ctx' : analyzerCtx) (fn : type) :
  ast_tag Node = astCall ->
  ast_l Node = Some l ->
  analyzerValue analyzerType l ctx = Some (l', L, ctx1) ->
  typeIsCallable (vr_dt L) = true ->
  typeIsInvalid (vr_dt L) = false ->
  calleeFn (vr_dt L) = Some fn ->
  (if variadic fn then params fn >? children Node
   else negb (params fn =? children Node)) = false ->
  analyzerValue analyzerType Node ctx = Some (Node', v, ctx') ->
  Forall2 (fun c c' => exists c1 c2 w,
             analyzerValue analyzerType c c1 = Some (c', w, c2)
             /\ ast_dt c' = Some (vr_dt w))
          (ast_childs Node) (ast_childs Node').
Proof.
  intros Htag Hl Hcallee Hcallable Hinvalid Hfn Harity.
  rewrite (analyzerValue_unfold analyzerType Node). unfold analyzerValueBody.
  rewrite Htag. dispatch.
  unfold analyzerCall, mbind, M_bind. rewrite Hl. simpl. rewrite Hcallee.
  rewrite Hcallable, Hinvalid. simpl.
  destruct (typeDeriveReturn (vr_dt L)) as [DT|]; simpl; [|discriminate].
  rewrite Hfn. simpl.
  change (children (setDt (setL Node l') DT)) with (children Node).
  rewrite Harity.
  destruct (callArgs _ _ (ast_childs Node) (paramTypes fn) 0 ctx1)
    as [[cs' c2]|] eqn:Eargs; [|discriminate].
  simpl. intros [= <- _ _]. simpl.
  exact (callArgs_visits_all _ _ _ _ _ _ _ Eargs).
Qed.
End CallArguments.

(** * The analysis writes types and symbols only *)

Section Syntax.
Context `{typeMasks} `{allocation}.
Variable analyzerType : ast -> M (ast * type).
Hypothesis analyzerType_keeps : forall n, keeps fst n (analyzerType n).

Lemma ensures_bind_post {A B} (Q1 : A -> analyzerCtx -> Prop)
      (Q : B -> analyzerCtx -> Prop) (m : M A) (f : A -> M B) :
  ensures Q1 m -> (forall a c, Q1 a c -> ensures Q (f a)) -> ensures Q (m ≫= f).
Proof.
  intros Hm Hf ctx b ctx'. unfold mbind, M_bind.
  destruct (m ctx) as [[a c]|] eqn:E; [|discriminate].
  apply (Hf a c). exact (Hm _ _ _ E).
Qed.

Lemma ensures_assoc {A B C} (Q : C -> analyzerCtx -> Prop)
      (m : M A) (g : A -> M B) (f : B -> M C) :
  ensures Q (m ≫= (fun a => g a ≫= f)) -> ensures Q ((m ≫= g) ≫= f).
Proof.
  intros Hm ctx c ctx' Hrun. apply (Hm ctx c ctx').
  unfold mbind, M_bind in *. destruct (m ctx) as [[a c1]|]; exact Hrun.
Qed.

Lemma ensures_ret_bind {A B} (Q : B -> analyzerCtx -> Prop) (a : A) (f : A -> M B) :
  ensures Q (f a) -> ensures Q (mret a ≫= f).
Proof. intros Hf ctx b ctx' Hrun. exact (Hf ctx b ctx' Hrun). Qed.

Lemma ensures_crash_bind {A B} (Q : B -> analyzerCtx -> Prop) (f : A -> M B) :
  ensures Q (crash ≫= f).
Proof. intros ctx b ctx' [=]. Qed.

Section Visitors.
Variable recV : ast -> M (ast * valueResult).
Variable recI : ast -> type -> M (ast * valueResult).

Local Abbreviation kept c :=
  (keeps fst c (recV c) /\ forall DT, keeps fst c (recI c DT)).

Ltac keeps_rec c :=
  match goal with
  | Hg : forall x, Some c = Some x -> kept x |- _ => exact (proj1 (Hg c eq_refl))
  | Hg : Forall _ (c :: _) |- _ => exact (proj1 (Forall_inv Hg))
  | Hg : kept c |- _ => exact (proj1 Hg)
  end.

Ltac keeps_recI c :=
  match goal with
  | Hg : forall x, Some c = Some x -> kept x |- _ => apply (proj2 (Hg c eq_refl))
  | Hg : Forall _ (c :: _) |- _ => apply (proj2 (Forall_inv Hg))
  | Hg : kept c |- _ => apply (proj2 Hg)
  end.

Ltac keeps_done :=
  cbn [skeleton fst snd ast_l ast_r ast_childs ast_tag ast_o ast_dt ast_symbol
       ast_litTag ast_literal setL setR setDt setChilds setFirstChild setSymbol
       map tail] in *;
  congruence.

Ltac keeps_step :=
  unfold keeps, keepsAll;
  lazymatch goal with
  | |- ensures _ (mret _) => apply ensures_ret; intros; keeps_done
  | |- ensures _ crash => apply ensures_crash
  | |- ensures _ (mret _ ≫= _) => apply ensures_ret_bind
  | |- ensures _ (crash ≫= _) => apply ensures_crash_bind
  | |- ensures _ ((_ ≫= _) ≫= _) => apply ensures_assoc
  | |- ensures _ (recV ?c ≫= _) =>
      apply (ensures_bind_post (fun a _ => skeleton (fst a) = skeleton c));
      [keeps_rec c | intros [? ?] _ ?]
  | |- ensures _ (recI ?c _ ≫= _) =>
      apply (ensures_bind_post (fun a _ => skeleton (fst a) = skeleton c));
      [keeps_recI c | intros [? ?] _ ?]
  | |- ensures _ (analyzerType ?c ≫= _) =>
      apply (ensures_bind_post (fun a _ => skeleton (fst a) = skeleton c));
      [apply analyzerType_keeps | intros [? ?] _ ?]
  | |- ensures _ (callArgs _ _ ?cs _ _ ≫= _) =>
      apply (ensures_bind_post (fun a _ => map skeleton a = map skeleton cs));
      [ match goal with
        | Hk : context [callArgs] |- _ => apply Hk
        end
      | intros ? _ ? ]
  | |- ensures _ (initFields _ _ _ ?cs _ ≫= _) =>
      apply (ensures_bind_post (fun a _ => map skeleton a = map skeleton cs));
      [ match goal with
        | Hk : context [initFields] |- _ => apply Hk
        end
      | intros ? _ ? ]
  | |- ensures _ (initElements _ _ _ ?cs ≫= _) =>
      apply (ensures_bind_post (fun a _ => map skeleton a = map skeleton cs));
      [ match goal with
        | Hk : context [initElements] |- _ => apply Hk
        end
      | intros ? _ ? ]
  | |- ensures _ (analyzerInitBody _ _ ?n _ ≫= _) =>
      apply (ensures_bind_post (fun a _ => skeleton (fst a) = skeleton n));
      [ match goal with
        | Hk : context [analyzerInitBody] |- _ =>
            apply Hk; cbn [ast_childs setL]; assumption
        end
      | intros [? ?] _ ? ]
  | |- ensures _ (deref ?p ≫= _) => destruct p; unfold deref
  | |- ensures _ (when ?b _ ≫= _) => destruct b; unfold when
  | |- ensures _ ((if ?b then _ else _) ≫= _) => destruct b
  | |- ensures _ ((match ?x with _ => _ end) ≫= _) => destruct x
  | |- ensures _ (_ ≫= _) => apply ensures_bind; intros
  | |- ensures _ (if ?b then _ else _) => destruct b
  | |- ensures _ (match ?x with _ => _ end) => destruct x
  end.

Ltac keeps_auto :=
  unfold visit, visitFirst, visitType, expectBoth, invalidResult,
    errorTypeExpected, errorTypeExpectedType, errorLvalue, errorMismatch,
    errorDegree, errorParamMismatch, errorNamedParamMismatch, errorMember,
    errorInitFieldMismatch, errorIllegalSymAsValue, debugErrorUnhandled, debugError;
  cbn [ast_l ast_r ast_childs ast_tag ast_o ast_dt ast_symbol
       ast_litTag ast_literal setL setR setDt setChilds setFirstChild setSymbol];
  repeat keeps_step.

Lemma keepsAll_callArgs (fnSym : option symref) (cs : list ast) :
  Forall (fun c => kept c) cs ->
  forall ps n, keepsAll cs (callArgs recV fnSym cs ps n).
Proof.
  induction 1 as [|c cs Hc Hcs IH]; intros ps n; simpl.
  - unfold keepsAll. apply ensures_ret. reflexivity.
  - destruct ps as [|p ps]; keeps_auto.
Qed.

Lemma keepsAll_initFields (structSym : symref) (cs : list ast) :
  Forall (fun c => kept c) cs ->
  forall fields, keepsAll cs (initFields recV recI structSym cs fields).
Proof.
  induction 1 as [|c cs Hc Hcs IH]; intros fields; simpl.
  - unfold keepsAll. apply ensures_ret. reflexivity.
  - destruct fields as [|f fields]; unfold symField; keeps_auto.
Qed.

Lemma keepsAll_initElements (elem : option type) (cs : list ast) :
  Forall (fun c => kept c) cs ->
  keepsAll cs (initElements recV recI elem cs).
Proof.
  induction 1 as [|c cs Hc Hcs IH]; simpl.
  - unfold keepsAll. apply ensures_ret. reflexivity.
  - keeps_auto.
Qed.

Lemma keeps_analyzerInitBody (Node : ast) :
  Forall (fun c => kept c) (ast_childs Node) ->
  forall DT, keeps fst Node (analyzerInitBody recV recI Node DT).
Proof.
  destruct Node as [t lt o lit l r cs s d]. cbn [ast_childs]. intros Hcs DT.
  pose proof (fun ss => keepsAll_initFields ss cs Hcs) as Hfields.
  pose proof (fun e => keepsAll_initElements e cs Hcs) as Helems.
  unfold analyzerInitBody, symField. keeps_auto.
Qed.

Lemma keeps_analyzerValueBody (Node : ast) :
  (forall c, ast_l Node = Some c -> kept c) ->
  (forall c, ast_r Node = Some c -> kept c) ->
  Forall (fun c => kept c) (ast_childs Node) ->
  keeps fst Node (analyzerValueBody analyzerType recV recI Node).
Proof.
  intros Hl Hr Hcs.
  pose proof keeps_analyzerInitBody as Hinit.
  destruct Node as [t lt o lit l r cs s d]. cbn [ast_l ast_r ast_childs] in *.
  pose proof (fun fs => keepsAll_callArgs fs cs Hcs) as Hargs.
  unfold analyzerValueBody.
  cbn [ast_tag ast_o ast_litTag].
  repeat match goal with
         | |- keeps _ _ (if ?b then _ else _) => destruct b
         end.
  all: unfold analyzerBOP, analyzerComparisonBOP, analyzerLogicalBOP,
    analyzerMemberBOP, analyzerCommaBOP, analyzerUOP, analyzerTernary,
    analyzerIndex, analyzerCall, analyzerCast, analyzerSizeof, analyzerLiteral,
    analyzerCompoundLiteral, calleeIdent, symField, symChild, typeGetRecordSym.
  all: keeps_auto.
Qed.
End Visitors.

(** The analysis writes derived types and symbols, and nothing else.
    When the type analyzer keeps the syntax of the type expressions it
    visits, the tree that an analysis gives back has the syntax of the
    tree it was given: the same tags, operators and literals, and the
    same children in the same places. *)
Theorem analysis_keeps_syntax (Node : ast) :
  keeps fst Node (analyzerValue analyzerType Node)
  /\ forall DT,
       keeps fst Node (analyzerInitOrCompoundLiteral analyzerType Node DT).
Proof.
  induction Node as [t lt o lit l r cs s d IHl IHr IHcs] using ast_ind_nested.
  split.
  - rewrite analyzerValue_unfold.
    apply keeps_analyzerValueBody; assumption.
  - intros DT. rewrite analyzerInitOrCompoundLiteral_unfold.
    apply keeps_analyzerInitBody; assumption.
Qed.
End Syntax.

(** * The further statements on the example *)

Lemma typeOfNode_respects (R : analyzerCtx -> analyzerCtx -> Prop) :
  (forall ctx, R ctx ctx) -> forall n, respects R (Example.typeOfNode n).
Proof.
  intros Hrefl n ctx a ctx'. unfold Example.typeOfNode, mbind, M_bind.
  destruct (ast_dt n); simpl; intros [= _ <-]. apply Hrefl.
Qed.

Lemma typeOfNode_keeps (n : ast) : keeps fst n (Example.typeOfNode n).
Proof.
  intros ctx a ctx'. unfold Example.typeOfNode, mbind, M_bind.
  destruct (ast_dt n); simpl; intros [= <- _]. reflexivity.
Qed.

(** C4, on [x.a] for [int x], and on [s->a] and [s->c] for the direct
    record [s]. *)
Lemma member_access_shape_witness :
  let x' := setDt (Example.ident "x" 9) Example.tInt in
  let s' := setDt (Example.ident "s" 8) Example.tS in
  let xa := Example.bop "." (Example.ident "x" 9) (Example.ident "a" 6) in
  let sa := Example.bop "->" (Example.ident "s" 8) (Example.ident "a" 6) in
  let sc := Example.bop "->" (Example.ident "s" 8)
              (Example.literal literalIdent "c" None) in
  Example.analyze xa
  = Some (setDt (setL xa x') Invalid, ValueResult Invalid true,
          addLog Example.ctx0 [TypeExpected x' "." "structure or union type"])
  /\ Example.analyze sa
     = Some (setDt (setSymbol (setL sa s') (Some 6%positive)) Example.tInt,
             ValueResult Example.tInt true,
             addLog Example.ctx0 [TypeExpected s' "->" "pointer"])
  /\ Example.analyze sc
     = Some (setDt (setSymbol (setL sc s') None) Invalid,
             ValueResult Invalid true,
             addLog Example.ctx0
               [TypeExpected s' "->" "pointer";
                Member "->" (Example.literal literalIdent "c" None) Example.tS]).
Proof.
  intros x' s' xa sa sc.
  pose (S := Sym symStruct "S" 0 8 [6%positive; 7%positive] None).
  split; [|split].
  - exact (proj1 (member_access_shape Example.typeOfNode xa (Example.ident "x" 9) x'
                    (ValueResult Example.tInt true) Example.ctx0 Example.ctx0
                    eq_refl eq_refl eq_refl eq_refl) eq_refl).
  - exact (proj1 (proj2 (member_access_shape Example.typeOfNode sa
                           (Example.ident "s" 8) s'
                           (ValueResult Example.tS true) Example.ctx0 Example.ctx0
                           eq_refl eq_refl eq_refl eq_refl)
                    5%positive S (Example.ident "a" 6)
                    eq_refl eq_refl eq_refl eq_refl)
             6%positive (Sym symId "a" 0 0 [] (Some Example.tInt)) Example.tInt
             eq_refl eq_refl eq_refl).
  - exact (proj2 (proj2 (member_access_shape Example.typeOfNode sc
                           (Example.ident "s" 8) s'
                           (ValueResult Example.tS true) Example.ctx0 Example.ctx0
                           eq_refl eq_refl eq_refl eq_refl)
                    5%positive S (Example.literal literalIdent "c" None)
                    eq_refl eq_refl eq_refl eq_refl)
             eq_refl).
Defined.

(** C10, on [{ &3 }] for the struct [S] of two fields and for the array
    [int a[0]]: the struct case reports the arity and leaves the element
    alone; the array case reports the arity and then analyzes the
    element, whose own diagnostic follows. *)
Lemma init_arity_witness :
  let elem := Example.uop "&" (Example.int "3") in
  let elem' := setDt (setR elem (setDt (Example.int "3") Example.tInt))
                     (Ptr Example.tInt) in
  let Node := Example.init [elem] in
  let DT := Array Example.tInt 0 in
  let reported := addLog Example.ctx0 [Degree (setDt Node DT) "elements" 0 1 "array"] in
  let ctx' := addLog reported [Lvalue (setDt (Example.int "3") Example.tInt) "&"] in
  analyzerInitOrCompoundLiteral Example.typeOfNode Node Example.tS Example.ctx0
  = Some (setDt Node Example.tS, ValueResult Example.tS false,
          addLog Example.ctx0 [Degree (setDt Node Example.tS) "fields" 2 1 "S"])
  /\ analyzerInitOrCompoundLiteral Example.typeOfNode Node DT Example.ctx0
     = Some (setChilds (setDt Node DT) [elem'], ValueResult DT false, ctx')
  /\ Forall2 (fun c c' => exists c1 c2 w,
               (if isInit c
                then analyzerInitOrCompoundLiteral Example.typeOfNode c Example.tInt
                else analyzerValue Example.typeOfNode c) c1 = Some (c', w, c2)
               /\ ast_dt c' = Some (vr_dt w))
            [elem] [elem']
  /\ exists more, ctx_log ctx' = ctx_log reported ++ more.
Proof.
  intros elem elem' Node DT reported ctx'.
  pose proof (init_arity Example.typeOfNode Node Example.ctx0 5%positive
                (Sym symStruct "S" 0 8 [6%positive; 7%positive] None)
                eq_refl eq_refl ltac:(vm_compute; lia)) as (Hstruct & _ & Harray).
  split; [exact Hstruct|].
  destruct (Harray Example.tInt 0 ltac:(lia) eq_refl) as [_ Hvisit].
  split; [reflexivity|].
  destruct (Hvisit (setChilds (setDt Node DT) [elem']) (ValueResult DT false) ctx'
              eq_refl) as [Hall Hlog].
  split; [exact Hall|].
  exact (Hlog (typeOfNode_respects logGrows logGrows_refl)).
Defined.

Lemma typeIsEqual_compatible_both_witness :
  typeIsCompatible Example.heap (Ptr Example.tInt) (Ptr Example.tInt) = Some true
  /\ typeIsCompatible Example.heap (Ptr Example.tInt) (Ptr Example.tInt) = Some true.
Proof.
  apply (typeIsEqual_compatible_both Example.heap (Ptr Example.tInt) (Ptr Example.tInt));
    reflexivity.
Defined.

Lemma void_pointer_accepts_pointers_and_arrays_witness :
  typeIsCompatible Example.heap (Ptr Example.tS) (Ptr Example.tVoid) = Some true
  /\ typeIsCompatible Example.heap (Array Example.tS 3) (Ptr Example.tVoid) = Some true.
Proof.
  apply (void_pointer_accepts_pointers_and_arrays Example.heap 1
           (Sym symType "void" 0 0 [] None) Example.tS 3); reflexivity.
Defined.

Lemma pointer_integer_interconversion_witness :
  typeIsCompatible Example.heap Example.tInt (Ptr Example.tS) = Some true
  /\ typeIsCompatible Example.heap (Ptr Example.tS) Example.tInt = Some true.
Proof.
  exact (pointer_integer_interconversion Example.heap 4
           (Sym symType "int" 31 4 [] None) Example.tS Example.tS eq_refl).
Defined.

Lemma typeDeriveReturn_callable_witness :
  exists fn,
    calleeFn (Ptr (Function Example.tInt [] false)) = Some fn
    /\ typeIsFunction fn = true
    /\ typeDeriveReturn (Ptr (Function Example.tInt [] false)) = typeDeriveReturn fn
    /\ is_Some (typeDeriveReturn fn).
Proof.
  apply (typeDeriveReturn_callable (Ptr (Function Example.tInt [] false)));
    reflexivity.
Defined.

Lemma analysis_log_grows_witness :
  respects logGrows
    (analyzerValue Example.typeOfNode
       (Example.call (Example.ident "f" 10) [Example.uop "&" (Example.int "3")])).
Proof.
  apply (analysis_log_grows Example.typeOfNode).
  exact (typeOfNode_respects logGrows logGrows_refl).
Defined.

Lemma analysis_keeps_symbols_witness :
  respects symbolsKept
    (analyzerValue Example.typeOfNode
       (Example.call (Example.ident "f" 10) [Example.uop "&" (Example.int "3")])).
Proof.
  apply (analysis_keeps_symbols Example.typeOfNode).
  exact (typeOfNode_respects symbolsKept symbolsKept_refl).
Defined.

Lemma analysis_keeps_syntax_witness :
  keeps fst
    (Example.bop "=" (Example.ident "x" 9) (Example.uop "&" (Example.int "3")))
    (analyzerValue Example.typeOfNode
       (Example.bop "=" (Example.ident "x" 9) (Example.uop "&" (Example.int "3")))).
Proof.
  apply (analysis_keeps_syntax Example.typeOfNode typeOfNode_keeps).
Defined.

(** [x + 3]. *)
Lemma analysis_types_node_witness :
  let Node := Example.bop "+" (Example.ident "x" 9) (Example.int "3") in
  let Node' :=
    setDt (setR (setL Node (setDt (Example.ident "x" 9) Example.tInt))
                (setDt (Example.int "3") Example.tInt)) Example.tInt in
  Example.analyze Node = Some (Node', ValueResult Example.tInt false, Example.ctx0)
  /\ ast_dt Node' = Some Example.tInt.
Proof.
  intros Node Node'. split; [reflexivity|].
  apply (proj1 (analysis_types_node Example.typeOfNode Node Node'
                  (ValueResult Example.tInt false) Example.ctx0 Example.ctx0)).
  reflexivity.
Defined.

(** [x + 3]. *)
Lemma rvalue_nodes_witness :
  let Node := Example.bop "+" (Example.ident "x" 9) (Example.int "3") in
  let Node' :=
    setDt (setR (setL Node (setDt (Example.ident "x" 9) Example.tInt))
                (setDt (Example.int "3") Example.tInt)) Example.tInt in
  let v := ValueResult Example.tInt false in
  rvalueNode Node = true
  /\ Example.analyze Node = Some (Node', v, Example.ctx0)
  /\ lvalue v = false.
Proof.
  intros Node Node' v. split; [reflexivity|]. split; [reflexivity|].
  apply (proj1 (rvalue_nodes Example.typeOfNode Node Node' v
                  Example.ctx0 Example.ctx0));
    reflexivity.
Defined.

(** [x < 3]. *)
Lemma truth_nodes_are_bool_witness :
  let Node := Example.bop "<" (Example.ident "x" 9) (Example.int "3") in
  let Node' :=
    setDt (setR (setL Node (setDt (Example.ident "x" 9) Example.tInt))
                (setDt (Example.int "3") Example.tInt)) Example.tBool in
  let v := ValueResult Example.tBool false in
  truthNode Node = true
  /\ Example.analyze Node = Some (Node', v, Example.ctx0)
  /\ vr_dt v = Basic (ctx_types Example.ctx0 builtinBool).
Proof.
  intros Node Node' v. split; [reflexivity|]. split; [reflexivity|].
  apply (proj1 (truth_nodes_are_bool Example.typeOfNode Node Node' v
                  Example.ctx0 Example.ctx0));
    reflexivity.
Defined.

(** [x(3)] for [int x]. *)
Lemma call_of_non_function_witness :
  let Node := Example.call (Example.ident "x" 9) [Example.int "3"] in
  let l' := setDt (Example.ident "x" 9) Example.tInt in
  Example.analyze Node
  = Some (setDt (setL Node l') Invalid, ValueResult Invalid false,
          addLog Example.ctx0 [TypeExpected l' "()" "function"])
  /\ ast_childs (setDt (setL Node l') Invalid) = [Example.int "3"].
Proof.
  intros Node l'.
  refine (call_of_non_function Example.typeOfNode Node (Example.ident "x" 9) l'
            (ValueResult Example.tInt true) Example.ctx0 Example.ctx0 _ _ _ _).
  - reflexivity.
  - reflexivity.
  - reflexivity.
  - left. reflexivity.
Defined.

(** [&3]. *)
Lemma address_of_rvalue_witness :
  let Node := Example.uop "&" (Example.int "3") in
  let r' := setDt (Example.int "3") Example.tInt in
  Example.analyze Node
  = Some (setDt (setR Node r') (Ptr Example.tInt),
          ValueResult (Ptr Example.tInt) false,
          addLog Example.ctx0 [Lvalue r' "&"]).
Proof.
  intros Node r'.
  refine (address_of_rvalue Example.typeOfNode Node (Example.int "3") r'
            (ValueResult Example.tInt false) Example.ctx0 Example.ctx0 _ _ _ _ _);
    reflexivity.
Defined.

(** [*s] for the struct [s]. *)
Lemma dereference_of_non_pointer_witness :
  let Node := Example.uop "*" (Example.ident "s" 8) in
  let r' := setDt (Example.ident "s" 8) Example.tS in
  Example.analyze Node
  = Some (setDt (setR Node r') Invalid, ValueResult Invalid true,
          addLog Example.ctx0 [TypeExpected r' "*" "pointer"]).
Proof.
  intros Node r'.
  refine (dereference_of_non_pointer Example.typeOfNode Node (Example.ident "s" 8) r'
            (ValueResult Example.tS true) Example.ctx0 Example.ctx0 _ _ _ _ _);
    reflexivity.
Defined.

(** The struct tag [S] used as a value. *)
Lemma identifier_of_illegal_symbol_witness :
  let Node := Example.ident "S" 5 in
  Example.analyze Node
  = Some (setDt Node Invalid, ValueResult Invalid true,
          addLog Example.ctx0 [IllegalSymAsValue Node 5]).
Proof.
  intros Node.
  refine (identifier_of_illegal_symbol Example.typeOfNode Node 5
            (Sym symStruct "S" 0 8 [6; 7]%positive None) Example.ctx0
            _ _ _ _ _ _ _); try reflexivity; discriminate.
Defined.

(** [int x = { 1, 2 }]. *)
Lemma init_scalar_arity_witness :
  let Node := Example.init [Example.int "1"; Example.int "2"] in
  analyzerInitOrCompoundLiteral Example.typeOfNode Node Example.tInt Example.ctx0
  = Some (setDt Node Example.tInt, ValueResult Example.tInt false,
          addLog Example.ctx0 [Degree (setDt Node Example.tInt) "element" 1 2 "scalar"])
  /\ ast_childs (setDt Node Example.tInt) = [Example.int "1"; Example.int "2"].
Proof.
  intros Node.
  refine (init_scalar_arity Example.typeOfNode Node Example.tInt Example.ctx0 _ _ _ _).
  - reflexivity.
  - reflexivity.
  - reflexivity.
  - vm_compute. lia.
Defined.

(** [int a[] = { 1, 2 }]. *)
Lemma init_array_fits_witness :
  let Node := Example.init [Example.int "1"; Example.int "2"] in
  analyzerInitOrCompoundLiteral Example.typeOfNode Node (Array Example.tInt (-1))
    Example.ctx0
  = (cs' ← initElements (analyzerValue Example.typeOfNode)
             (analyzerInitOrCompoundLiteral Example.typeOfNode)
             (Some Example.tInt) (ast_childs Node);
     mret (setChilds (setDt Node (Array Example.tInt (-1))) cs',
           ValueResult (Array Example.tInt (-1)) false)) Example.ctx0.
Proof.
  intros Node.
  refine (init_array_fits Example.typeOfNode Node Example.tInt (-1) Example.ctx0 _).
  left. reflexivity.
Defined.

Lemma compound_assignment_is_numeric_witness :
  isNumericBOP "+=" = negb (streq "+=" "=").
Proof. apply (compound_assignment_is_numeric "+="). reflexivity. Defined.

(** [f(x, 3)] for [int f(int, int)]. *)
Lemma call_visits_every_argument_witness :
  let f := Example.ident "f" 10 in
  let tf := Function Example.tInt [Example.tInt; Example.tInt] false in
  let Node := Example.call f [Example.ident "x" 9; Example.int "3"] in
  let Node' :=
    setChilds (setDt (setL Node (setDt f tf)) Example.tInt)
      [setDt (Example.ident "x" 9) Example.tInt; setDt (Example.int "3") Example.tInt] in
  Example.analyze Node = Some (Node', ValueResult Example.tInt false, Example.ctx0)
  /\ Forall2 (fun c c' => exists c1 c2 w,
               analyzerValue Example.typeOfNode c c1 = Some (c', w, c2)
               /\ ast_dt c' = Some (vr_dt w))
            (ast_childs Node) (ast_childs Node').
Proof.
  intros f tf Node Node'. split; [reflexivity|].
  refine (call_visits_every_argument Example.typeOfNode Node f (setDt f tf) Node'
            (ValueResult tf true) (ValueResult Example.tInt false)
            Example.ctx0 Example.ctx0 Example.ctx0 tf
            _ _ _ _ _ _ _ _); reflexivity.
Defined.

(** * Properties of the rendering *)

Section Rendering.
Variable syms : symtab.

Lemma typeToStr_params_total (ps : list type) :
  Forall (fun p => forall e, is_Some (typeToStr syms p e)) ps ->
  is_Some ((fix paramStrs (ps : list type) : option (list string) :=
              match ps with
              | [] => Some []
              | p :: ps' =>
                  str ← typeToStr syms p "";
                  strs ← paramStrs ps';
                  Some (str :: strs)
              end) ps).
Proof.
  induction 1 as [|p ps Hp _ IH]; [eauto|].
  destruct (Hp ""%string) as [str ->]. simpl.
  destruct IH as [strs ->]. simpl. eauto.
Qed.

(** A type whose symbols are in the heap has a rendering, around any
    embedded text: reporting a diagnostic about a well-formed type does
    not crash. *)
Theorem typeToStr_total (t : type) (embedded : string) :
  typeWf syms t = true -> is_Some (typeToStr syms t embedded).
Proof.
  revert embedded.
  induction t as [s|b IH|b n IH|r ps v IHr IHps|] using type_ind_nested;
    intros embedded Hwf; simpl in *.
  - apply bool_decide_eq_true in Hwf. destruct Hwf as [sy ->]. simpl. eauto.
  - apply IH. exact Hwf.
  - apply IH. exact Hwf.
  - apply andb_true_iff in Hwf. destruct Hwf as [Hr Hps].
    assert (Hstrs : Forall (fun p => forall e, is_Some (typeToStr syms p e)) ps).
    { apply Forall_forall. intros p Hin e.
      rewrite Forall_forall in IHps. apply IHps; [exact Hin|].
      rewrite forallb_forall in Hps. apply Hps. apply list_elem_of_In. exact Hin. }
    destruct (negb (Z.of_nat (length ps) =? 0)); simpl.
    + destruct (typeToStr_params_total ps Hstrs) as [strs ->]. simpl.
      apply IHr. exact Hr.
    + apply IHr. exact Hr.
  - eauto.
Qed.

Lemma withEmbedded_prefix (name embedded : string) :
  exists rest, withEmbedded name embedded = (name ++ rest)%string.
Proof.
  unfold withEmbedded. destruct (String.eqb embedded "").
  - exists ""%string. induction name as [|a name IH]; [reflexivity|].
    change (String a name = String a (name ++ "")). f_equal. exact IH.
  - eexists. reflexivity.
Qed.

(** A rendering starts with the name of the basic type that the type is
    derived from, whatever is embedded: the declarator follows the
    name. *)
Theorem typeToStr_starts_with_leaf (t : type) (embedded str : string) :
  typeToStr syms t embedded = Some str ->
  exists name rest, leafName syms t = Some name /\ str = (name ++ rest)%string.
Proof.
  revert embedded str.
  induction t as [s|b IH|b n IH|r ps v IHr IHps|] using type_ind_nested;
    intros embedded str; simpl.
  - destruct (syms !! s) as [sy|]; simpl; [|discriminate].
    intros [= <-]. destruct (withEmbedded_prefix (sym_ident sy) embedded) as [rest ->].
    eauto.
  - apply IH.
  - apply IH.
  - destruct (if negb (Z.of_nat (length ps) =? 0) then _ else _) as [params|];
      simpl; [|discriminate].
    apply IHr.
  - intros [= <-]. destruct (withEmbedded_prefix "<invalid>" embedded) as [rest ->].
    eauto.
Qed.
End Rendering.

(** * Properties of the statement driver *)

Section DriverFacts.
Context `{typeMasks} `{allocation}.
Variable analyzerType : ast -> M (ast * type).
Variable analyzerDecl : ast -> D ast.
Variable astIsValueTag : astTag -> bool.
Hypothesis analyzerDecl_keepsReturn : forall n, keepsReturn (analyzerDecl n).

Lemma keepsReturn_ret {A} (a : A) : keepsReturn (mret a : D A).
Proof. intros st a' st' [= _ <-]. reflexivity. Qed.

Lemma keepsReturn_bind {A B} (m : D A) (f : A -> D B) :
  keepsReturn m -> (forall a, keepsReturn (f a)) -> keepsReturn (m ≫= f).
Proof.
  intros Hm Hf st b st'. unfold mbind, D_bind.
  destruct (m st) as [[a st1]|] eqn:E; [|discriminate].
  intros Hk. rewrite (Hf a _ _ _ Hk). exact (Hm _ _ _ E).
Qed.

Lemma keepsReturn_crash {A} : keepsReturn (@dcrash A).
Proof. intros st a st' [=]. Qed.

Lemma keepsReturn_dderef {A} (p : option A) : keepsReturn (dderef p).
Proof. destruct p; [apply keepsReturn_ret | apply keepsReturn_crash]. Qed.

Lemma keepsReturn_liftM {A} (m : M A) : keepsReturn (liftM m).
Proof.
  intros st a st'. unfold liftM.
  destruct (m (d_ctx st)) as [[a' c]|]; intros [= _ <-]. reflexivity.
Qed.

Lemma keepsReturn_report (e : driverEvent) : keepsReturn (report e).
Proof. intros st a st' [= _ <-]. reflexivity. Qed.

Lemma keepsReturn_getReturnType : keepsReturn getReturnType.
Proof. intros st a st' [= _ <-]. reflexivity. Qed.

Lemma keepsReturn_dwhen (b : bool) (m : D unit) :
  keepsReturn m -> keepsReturn (dwhen b m).
Proof. destruct b; [auto | intros _; apply keepsReturn_ret]. Qed.

Ltac keepsReturn_step :=
  lazymatch goal with
  | |- keepsReturn (mret _) => apply keepsReturn_ret
  | |- keepsReturn dcrash => apply keepsReturn_crash
  | |- keepsReturn (dderef _) => apply keepsReturn_dderef
  | |- keepsReturn (liftM _) => apply keepsReturn_liftM
  | |- keepsReturn (report _) => apply keepsReturn_report
  | |- keepsReturn getReturnType => apply keepsReturn_getReturnType
  | |- keepsReturn (analyzerDecl _) => apply analyzerDecl_keepsReturn
  | |- keepsReturn (_ ≫= _) => apply keepsReturn_bind; [|intros]
  | |- keepsReturn (dwhen _ _) => apply keepsReturn_dwhen
  | |- keepsReturn (if ?b then _ else _) => destruct b
  | |- keepsReturn (match ?x with _ => _ end) => destruct x eqn:?
  end.

Lemma endsWith_bind {A B} (old : option type) (m : D A) (f : A -> D B) :
  (forall a, endsWith old (f a)) -> endsWith old (m ≫= f).
Proof.
  intros Hf st b st'. unfold mbind, D_bind.
  destruct (m st) as [[a st1]|]; [|discriminate]. apply Hf.
Qed.

Lemma keepsReturn_saved {A} (k : option type -> D A) :
  (forall old, endsWith old (k old)) -> keepsReturn (getReturnType ≫= k).
Proof. intros Hk st a st'. unfold mbind, D_bind, getReturnType. apply Hk. Qed.

Lemma endsWith_restore {A} (old : option type) (a : A) :
  endsWith old (setReturnType old ≫= fun _ => (mret a : D A)).
Proof. intros st x st' [= _ <-]. reflexivity. Qed.

Section Statements.
Variable recN : ast -> D ast.

Ltac keepsReturn_auto :=
  unfold condition, analyzerErrorExpectedType, analyzerErrorExpected,
    analyzerError, render, value, visitNode;
  repeat (cbn [ast_l ast_r ast_childs ast_tag ast_o ast_dt ast_symbol
               ast_litTag ast_literal setL setR setDt setChilds setFirstChild
               setSymbol];
          first [ assumption
                | keepsReturn_step
                | match goal with
                  | Hg : forall c, _ = Some c -> keepsReturn (recN c)
                    |- keepsReturn (recN ?c) =>
                      apply Hg; first [assumption | reflexivity]
                  | Hg : Forall _ (?c :: _) |- keepsReturn (recN ?c) =>
                      apply (Forall_inv Hg)
                  | Hg : Forall _ (_ :: ?c :: _) |- keepsReturn (recN ?c) =>
                      apply (Forall_inv (Forall_inv_tail Hg))
                  | Hg : Forall _ (_ :: _ :: ?c :: _) |- keepsReturn (recN ?c) =>
                      apply (Forall_inv (Forall_inv_tail (Forall_inv_tail Hg)))
                  end ]).

Lemma keepsReturn_nodes (cs : list ast) :
  Forall (fun c => keepsReturn (recN c)) cs -> keepsReturn (nodes recN cs).
Proof.
  induction 1 as [|c cs Hc _ IH]; simpl.
  - apply keepsReturn_ret.
  - keepsReturn_auto.
Qed.

(** [analyzerFnImpl] ends with the expected return type that it found,
    whatever its body does to it. *)
Lemma keepsReturn_analyzerFnImpl (Node : ast) :
  keepsReturn (analyzerFnImpl analyzerDecl recN Node).
Proof.
  unfold analyzerFnImpl.
  repeat lazymatch goal with
         | |- keepsReturn (getReturnType ≫= _) => fail
         | |- keepsReturn (_ ≫= _) => apply keepsReturn_bind; [keepsReturn_auto|intros]
         end.
  apply keepsReturn_saved. intros old.
  repeat lazymatch goal with
         | |- endsWith ?o (setReturnType ?o ≫= _) => fail
         | |- endsWith _ (_ ≫= _) => apply endsWith_bind; intros
         end.
  apply endsWith_restore.
Qed.

Lemma keepsReturn_analyzerNodeBody (Node : ast) :
  (forall c, ast_l Node = Some c -> keepsReturn (recN c)) ->
  (forall c, ast_r Node = Some c -> keepsReturn (recN c)) ->
  Forall (fun c => keepsReturn (recN c)) (ast_childs Node) ->
  keepsReturn (analyzerNodeBody analyzerType analyzerDecl astIsValueTag recN Node).
Proof.
  intros Hl Hr Hcs. pose proof (keepsReturn_nodes _ Hcs) as Hnodes.
  unfold analyzerNodeBody.
  repeat lazymatch goal with
         | |- keepsReturn (if ?b then _ else _) => destruct b
         end;
    try apply keepsReturn_analyzerFnImpl;
    unfold analyzerModule, analyzerUsing, analyzerCode, analyzerBranch,
      analyzerLoop, analyzerIter, analyzerReturn, firstChild;
    keepsReturn_auto.
Qed.
End Statements.

(** The expected return type is saved and restored. When the
    declaration analyzer leaves the expected return type alone, the
    analysis of a statement leaves it as it found it, function
    implementations included: [analyzerFnImpl] sets it for the body and
    puts the old one back. *)
Theorem analyzerNode_restores_returnType (Node : ast) :
  keepsReturn (analyzerNode analyzerType analyzerDecl astIsValueTag Node).
Proof.
  induction Node as [t lt o lit l r cs s d IHl IHr IHcs] using ast_ind_nested.
  change (keepsReturn
            (analyzerNodeBody analyzerType analyzerDecl astIsValueTag
               (analyzerNode analyzerType analyzerDecl astIsValueTag)
               (Ast t lt o lit l r cs s d))).
  apply keepsReturn_analyzerNodeBody; assumption.
Qed.

(** A return statement without a value. Inside a function whose return
    type is a builtin type of size zero nothing is reported; inside any
    other function the one report is that the return statement expected
    the return type and found void. The node is as it was. *)
Theorem return_without_value (Node : ast) (st : driverCtx) (expected : type)
        (void : bool) (ExpectedStr voidStr : string) :
  ast_tag Node = astReturn ->
  ast_r Node = None ->
  d_returnType st = Some expected ->
  typeIsVoid (ctx_syms (d_ctx st)) expected = Some void ->
  typeToStr (ctx_syms (d_ctx st)) expected "" = Some ExpectedStr ->
  typeToStr (ctx_syms (d_ctx st)) (Basic (ctx_types (d_ctx st) builtinVoid)) ""
  = Some voidStr ->
  analyzerNode analyzerType analyzerDecl astIsValueTag Node st
  = Some (Node,
          if void then st
          else DriverCtx (d_ctx st) (d_returnType st)
                 (d_log st ++ [Error Node ("return statement expected "
                                            ++ ExpectedStr ++ ", found "
                                            ++ voidStr)])).
Proof.
  intros Htag Hr Hrt Hvoid Hes Hvs.
  destruct Node as [t lt o lit l r cs s d]. simpl in Htag, Hr. subst t r.
  destruct st as [ctx rt log]. cbn [d_ctx d_returnType d_log] in *. subst rt.
  change (analyzerReturn analyzerType
            (Ast astReturn lt o lit l None cs s d) (DriverCtx ctx (Some expected) log)
          = Some (Ast astReturn lt o lit l None cs s d,
                  if void then DriverCtx ctx (Some expected) log
                  else DriverCtx ctx (Some expected)
                         (log ++ [Error (Ast astReturn lt o lit l None cs s d)
                                    ("return statement expected "
                                     ++ ExpectedStr ++ ", found " ++ voidStr)]))).
  unfold analyzerReturn. cbn [ast_r].
  unfold mbind, D_bind, getReturnType, liftM, query, dderef. cbn.
  rewrite Hvoid. destruct void; cbn; [destruct ctx; reflexivity|].
  unfold analyzerErrorExpectedType, analyzerErrorExpected, analyzerError, render,
    mbind, D_bind, liftM, query, dderef, types, report. cbn.
  rewrite Hes. cbn. cbn in Hvs. rewrite Hvs. cbn.
  destruct ctx; reflexivity.
Qed.
End DriverFacts.

(** * The statements of the rendering and of the driver on the example *)

(** The type of [int f(int, char)], around the name [f]. *)
Lemma typeToStr_total_witness :
  is_Some (typeToStr Example.heap
             (Function Example.tInt [Example.tInt; Example.tChar] false) "f").
Proof. apply typeToStr_total. reflexivity. Defined.

Lemma typeToStr_starts_with_leaf_witness :
  exists name rest,
    leafName Example.heap
      (Function Example.tInt [Example.tInt; Example.tChar] false) = Some name
    /\ "int (f)(int, char)"%string = (name ++ rest)%string.
Proof.
  apply (typeToStr_starts_with_leaf Example.heap
           (Function Example.tInt [Example.tInt; Example.tChar] false) "f").
  reflexivity.
Defined.

Lemma declOfNode_keepsReturn (n : ast) : keepsReturn (DriverExample.declOfNode n).
Proof. intros st a st' [= _ <-]. reflexivity. Qed.

Lemma analyzerNode_restores_returnType_witness :
  keepsReturn
    (analyzerNode Example.typeOfNode DriverExample.declOfNode DriverExample.valueTag
       DriverExample.returnNode).
Proof.
  apply (analyzerNode_restores_returnType Example.typeOfNode
           DriverExample.declOfNode DriverExample.valueTag declOfNode_keepsReturn).
Defined.

(** [return;] inside a function that returns int. *)
Lemma return_without_value_witness :
  DriverExample.analyze DriverExample.returnNode (DriverExample.inFunction Example.tInt)
  = Some (DriverExample.returnNode,
          DriverCtx Example.ctx0 (Some Example.tInt)
            [Error DriverExample.returnNode
               "return statement expected int, found void"]).
Proof.
  exact (return_without_value Example.typeOfNode DriverExample.declOfNode
           DriverExample.valueTag DriverExample.returnNode
           (DriverExample.inFunction Example.tInt) Example.tInt false "int" "void"
           eq_refl eq_refl eq_refl eq_refl eq_refl eq_refl).
Defined.
